(** * redis_logger: the buffered SMTP log handler and its logger facade

    A shallow embedding of [src/redis_logger/example_smtp_logger.py]:
    the handler [InovatSMTPHandler] (constructor, [emit], [__emit]) and the
    facade [BaseLogger] / [SMTPLogger] ([configured], [configure], the six
    logging calls).  Python values that flow through [*args] / [**kwargs]
    are kept dynamically typed ([pyval]); exceptions are results, and
    whatever a statement changed before it raised stays changed. *)

From Stdlib Require Import ZArith QArith String Ascii List Lia.
From stdpp Require Import base option list gmap strings.
Import ListNotations.
Local Open Scope string_scope.
Local Open Scope list_scope.
Local Open Scope Z_scope.

(** ** Python values and exceptions *)

Set Warnings "-register-all".

Inductive pyval : Type :=
| PyNone
| PyBool (b : bool)
| PyInt (z : Z)
| PyFloat (q : Q)
| PyStr (s : string)
| PyTuple (items : list pyval)
| PyList (items : list pyval)
| PyType (name : string).

(** The exception classes that occur.  [Exception] is the bare class the
    facade raises; the last two derive from [BaseException] only. *)
Inductive exn : Type :=
| Exception
| TypeError
| ValueError
| AttributeError
| IndexError
| OSError
| SMTPException
| RuntimeError
| KeyboardInterrupt
| SystemExit.

(** [isinstance(e, Exception)]: what an [except Exception:] clause catches. *)
Definition is_Exception (e : exn) : bool :=
  match e with
  | KeyboardInterrupt | SystemExit => false
  | _ => true
  end.

Inductive res (A : Type) : Type :=
| Val (a : A)
| Exc (e : exn).
Arguments Val {A} a.
Arguments Exc {A} e.

#[global] Instance res_ret : MRet res := @Val.
#[global] Instance res_bind : MBind res := fun A B f r =>
  match r with
  | Val a => f a
  | Exc e => Exc e
  end.
#[global] Instance res_fmap : FMap res := fun A B f r =>
  match r with
  | Val a => Val (f a)
  | Exc e => Exc e
  end.

(** Truth value of an object ([if x:], [not x]). *)
Definition truthy (v : pyval) : bool :=
  match v with
  | PyNone => false
  | PyBool b => b
  | PyInt z => negb (z =? 0)
  | PyFloat q => negb (Qeq_bool q 0)
  | PyStr s => negb (String.eqb s "")
  | PyTuple l | PyList l => negb (Nat.eqb (length l) 0)
  | PyType _ => true
  end.

(** [isinstance(v, (list, tuple))] *)
Definition is_list_or_tuple (v : pyval) : bool :=
  match v with
  | PyTuple _ | PyList _ => true
  | _ => false
  end.

(** [a, b = v] for a list or tuple [v] *)
Definition unpack2 (v : pyval) : res (pyval * pyval) :=
  match v with
  | PyTuple [a; b] | PyList [a; b] => Val (a, b)
  | PyTuple _ | PyList _ => Exc ValueError
  | _ => Exc TypeError
  end.

(** [obj[key] = value].  A list takes an in-range integer index; a class
    object such as the built-in [list] has no [__setitem__] (subscripting it
    for reading goes through [__class_getitem__], assignment does not). *)
Definition py_setitem (obj key value : pyval) : res pyval :=
  match obj, key with
  | PyList l, PyInt i =>
      let n := Z.of_nat (length l) in
      if (i <? - n) || (n <=? i) then Exc IndexError
      else Val (PyList (<[Z.to_nat (if i <? 0 then i + n else i) := value]> l))
  | _, _ => Exc TypeError
  end.

(** [n >= v] for an [int] [n] (here always a [len(...)]). *)
Definition py_int_ge (n : Z) (v : pyval) : res bool :=
  match v with
  | PyInt c => Val (c <=? n)
  | PyBool b => Val ((if b then 1 else 0) <=? n)
  | PyFloat q => Val (Qle_bool q (inject_Z n))
  | _ => Exc TypeError
  end.

Definition newline : string := String (ascii_of_nat 10) EmptyString.

(** [sep.join(v)]: every item must be a [str]. *)
Fixpoint str_items (l : list pyval) : res (list string) :=
  match l with
  | [] => Val []
  | PyStr s :: l' => (fun ss => s :: ss) <$> str_items l'
  | _ :: _ => Exc TypeError
  end.

Definition chars (s : string) : list pyval :=
  map (fun c => PyStr (String c EmptyString)) (list_ascii_of_string s).

(** Iterating an object, as [*v] and [sep.join(v)] do. *)
Definition py_iter (v : pyval) : res (list pyval) :=
  match v with
  | PyTuple l | PyList l => Val l
  | PyStr s => Val (chars s)
  | _ => Exc TypeError
  end.

Definition py_join (sep : string) (v : pyval) : res string :=
  l ← py_iter v; ss ← str_items l; Val (String.concat sep ss).

(** ** State and exceptions

    [M S A]: a computation over a state [S] that returns or raises; the
    state it reached is kept in both cases. *)

Definition M (S A : Type) : Type := S -> res A * S.

Definition ret {S A} (a : A) : M S A := fun s => (Val a, s).
Definition raise {S A} (e : exn) : M S A := fun s => (Exc e, s).
Definition bind {S A B} (m : M S A) (k : A -> M S B) : M S B := fun s =>
  match m s with
  | (Val a, s') => k a s'
  | (Exc e, s') => (Exc e, s')
  end.
Definition lift {S A} (r : res A) : M S A := fun s => (r, s).
Definition modify {S} (f : S -> S) : M S unit := fun s => (Val tt, f s).

Declare Scope py_scope.
Delimit Scope py_scope with py.
Notation "x <- m ;; k" := (bind m (fun x => k))
  (at level 100, m at next level, right associativity) : py_scope.
Notation "m ;; k" := (bind m (fun _ => k))
  (at level 100, right associativity) : py_scope.

(** ** Log records, formatters and the standard [SMTPHandler] *)

Record LogRecord : Type := { levelno : Z; msg : string }.

Record Formatter : Type := { fmt : pyval; datefmt : pyval }.

(** [logging._defaultFormatter = Formatter()] *)
Definition _defaultFormatter : Formatter := {| fmt := PyNone; datefmt := PyNone |}.

(** The attributes [logging.handlers.SMTPHandler.__init__] sets.  [password]
    is only assigned when the credentials are a list or tuple. *)
Record SMTPHandler : Type := {
  level : Z;
  formatter : option Formatter;
  mailhost : pyval;
  mailport : pyval;
  username : pyval;
  password : option pyval;
  fromaddr : pyval;
  toaddrs : pyval;
  subject : pyval;
  secure : pyval;
  timeout : pyval
}.

Definition NOTSET : Z := 0.
Definition DEBUG : Z := 10.
Definition INFO : Z := 20.
Definition WARNING : Z := 30.
Definition ERROR : Z := 40.
Definition CRITICAL : Z := 50.

Definition SMTPHandler_init
    (mailhost fromaddr toaddrs subject credentials secure timeout : pyval)
  : res SMTPHandler :=
  '(host, port) ←
    (if is_list_or_tuple mailhost then unpack2 mailhost else Val (mailhost, PyNone));
  '(user, pass) ←
    (if is_list_or_tuple credentials
     then (fun up => (fst up, Some (snd up))) <$> unpack2 credentials
     else Val (PyNone, None));
  Val {| level := NOTSET; formatter := None;
         mailhost := host; mailport := port;
         username := user; password := pass;
         fromaddr := fromaddr;
         toaddrs := match toaddrs with PyStr _ => PyList [toaddrs] | _ => toaddrs end;
         subject := subject; secure := secure; timeout := timeout |}.

(** ** [InovatSMTPHandler] *)

Record ThreadPoolExecutor : Type := { max_workers : Z }.

Record InovatSMTPHandler : Type := {
  base : SMTPHandler;
  __buffer_size : pyval;
  __buffer : list LogRecord;
  __executor : ThreadPoolExecutor
}.

(** [kwargs.get(key, default)] *)
Definition kwargs_get (kwargs : gmap string pyval) (key : string) (dflt : pyval) : pyval :=
  default dflt (kwargs !! key).

(** [args[i] if len(args) > i else kwargs.get(key, default)] *)
Definition arg_or_kwarg (args : list pyval) (i : nat) (kwargs : gmap string pyval)
    (key : string) (dflt : pyval) : pyval :=
  match args !! i with
  | Some v => v
  | None => kwargs_get kwargs key dflt
  end.

(** Lines 82-97 of [__init__]: pick the seven values and run
    [super().__init__] on them. *)
Definition init_super (args : list pyval) (kwargs : gmap string pyval) : res SMTPHandler :=
  let mailhost := arg_or_kwarg args 0 kwargs "maihost" (PyStr "") in
  let fromaddr := arg_or_kwarg args 1 kwargs "fromaddr" (PyStr "") in
  let toaddrs := arg_or_kwarg args 2 kwargs "toaddrs" (PyList []) in
  let subject := arg_or_kwarg args 3 kwargs "subject" (PyStr "") in
  let credentials := kwargs_get kwargs "credentials" PyNone in
  let secure := kwargs_get kwargs "secure" (PyBool false) in
  let timeout := kwargs_get kwargs "timeout" (PyFloat 5) in
  SMTPHandler_init mailhost fromaddr toaddrs subject credentials secure timeout.

(** [InovatSMTPHandler.__init__].  Line 99 is the chained assignment
    [self.__buffer = list[logging.LogRecord] = []]: the value [[]] is bound
    to the targets from left to right, and the second target is an item of
    the class object [list]. *)
Definition InovatSMTPHandler_init (args : list pyval) (kwargs : gmap string pyval)
  : res InovatSMTPHandler :=
  super ← init_super args kwargs;
  let buffer_size := kwargs_get kwargs "buffer_size" (PyInt 10) in
  let buffer : list LogRecord := [] in
  _ ← py_setitem (PyType "list") (PyType "logging.LogRecord") (PyList []);
  Val {| base := super;
         __buffer_size := buffer_size;
         __buffer := buffer;
         __executor := {| max_workers := 10 |} |}.

Definition set_buffer (self : InovatSMTPHandler) (b : list LogRecord) : InovatSMTPHandler :=
  {| base := base self; __buffer_size := __buffer_size self;
     __buffer := b; __executor := __executor self |}.

Definition set_base (self : InovatSMTPHandler) (s : SMTPHandler) : InovatSMTPHandler :=
  {| base := s; __buffer_size := __buffer_size self;
     __buffer := __buffer self; __executor := __executor self |}.

(** ** The mail transport and the process environment *)

Record EmailMessage : Type := {
  msg_From : pyval;
  msg_To : string;
  msg_Subject : pyval;
  msg_Date : string;
  content : string   (* the argument of [set_content] *)
}.

Inductive smtp_call : Type :=
| SMTP_open (host port timeout : pyval)      (* smtplib.SMTP(host=, port=, timeout=) *)
| SMTP_ehlo
| SMTP_starttls (args : list pyval)
| SMTP_login (user password : pyval)
| SMTP_send_message (m : EmailMessage)
| SMTP_quit.

(** What the handler can touch outside itself: the calls made on the SMTP
    connection, each with the exception it ended in if any; the diagnostics
    written by [handleError]; and, as a trace for the statements below, the
    buffer contents at each task submitted to the executor. *)
Record env : Type := {
  smtp_log : list (smtp_call * option exn);
  reported : list (LogRecord * exn);
  submitted : list (list LogRecord)
}.

Definition env0 : env := {| smtp_log := []; reported := []; submitted := [] |}.

Definition SMTP_PORT : Z := 25.

(** [logging.Handler.handleError(record)] while exception [x] is being
    handled: a diagnostic on the error stream, nothing is re-raised. *)
Definition handleError (record : LogRecord) (x : exn) (e : env) : env :=
  {| smtp_log := smtp_log e;
     reported := reported e ++ [(record, x)];
     submitted := submitted e |}.

Definition note_submit (batch : list LogRecord) (e : env) : env :=
  {| smtp_log := smtp_log e;
     reported := reported e;
     submitted := submitted e ++ [batch] |}.

(** ** The [logging] registry *)

Record Logger : Type := {
  logger_level : Z;
  handlers : list InovatSMTPHandler
}.

(** [Logger.manager.loggerDict] together with the root logger, and the
    environment.  A logger is referred to by its key in the registry. *)
Record world : Type := {
  loggerDict : gmap string Logger;
  the_env : env
}.

Definition logger_key (name : string) : string :=
  if String.eqb name "" then "root" else name.

Definition new_logger (key : string) : Logger :=
  {| logger_level := if String.eqb key "root" then WARNING else NOTSET;
     handlers := [] |}.

Definition the_logger (w : world) (key : string) : Logger :=
  default (new_logger key) (loggerDict w !! key).

(** [logging.getLogger(name)]: the logger of that name, created on first use. *)
Definition getLogger (name : string) (w : world) : string * world :=
  let key := logger_key name in
  (key, {| loggerDict := <[key := the_logger w key]> (loggerDict w);
           the_env := the_env w |}).

(** The same for a name of any type: a false value stands for the root
    logger, any other value that is not a string is refused. *)
Definition getLogger_any (name : pyval) (w : world) : res string * world :=
  match name with
  | PyStr s => let '(key, w') := getLogger s w in (Val key, w')
  | _ =>
      if truthy name then (Exc TypeError, w)
      else let '(key, w') := getLogger "" w in (Val key, w')
  end.

Definition setLevel (h : InovatSMTPHandler) (lv : Z) : InovatSMTPHandler :=
  let b := base h in
  set_base h {| level := lv; formatter := formatter b;
                mailhost := mailhost b; mailport := mailport b;
                username := username b; password := password b;
                fromaddr := fromaddr b; toaddrs := toaddrs b;
                subject := subject b; secure := secure b; timeout := timeout b |}.

Definition setFormatter (h : InovatSMTPHandler) (f : Formatter) : InovatSMTPHandler :=
  let b := base h in
  set_base h {| level := level b; formatter := Some f;
                mailhost := mailhost b; mailport := mailport b;
                username := username b; password := password b;
                fromaddr := fromaddr b; toaddrs := toaddrs b;
                subject := subject b; secure := secure b; timeout := timeout b |}.

(** [Logger.addHandler(hdlr)] *)
Definition addHandler (key : string) (h : InovatSMTPHandler) (w : world) : world :=
  let lg := the_logger w key in
  {| loggerDict := <[key := {| logger_level := logger_level lg;
                               handlers := handlers lg ++ [h] |}]> (loggerDict w);
     the_env := the_env w |}.

(** ** The platform *)

(** What the program takes from the standard library and the outside: how a
    formatter renders a record, which format strings [Formatter(...)]
    accepts, which SMTP calls fail and with what, the clock, and what
    [Logger.log(level, msg)] does on a logger of the registry (level test,
    handlers of the logger and of its ancestors, the handler of last
    resort). *)
Record platform : Type := {
  Formatter_format : Formatter -> LogRecord -> res string;
  Formatter_validate : pyval -> bool;
  net : smtp_call -> option exn;
  localtime : string;
  Logger_log : string -> pyval -> string -> M world unit
}.

Section Handler.

Variable P : platform.

Definition smtp (c : smtp_call) : M env unit := fun e =>
  (match net P c with None => Val tt | Some x => Exc x end,
   {| smtp_log := smtp_log e ++ [(c, net P c)];
      reported := reported e;
      submitted := submitted e |}).

(** [logging.Handler.format(record)] *)
Definition format (self : InovatSMTPHandler) (record : LogRecord) : res string :=
  Formatter_format P (default _defaultFormatter (formatter (base self))) record.

(** [[self.format(record=record) for record in self.__buffer]] *)
Fixpoint format_records (self : InovatSMTPHandler) (records : list LogRecord)
  : res (list string) :=
  match records with
  | [] => Val []
  | record :: rest =>
      s ← format self record;
      ss ← format_records self rest;
      Val (s :: ss)
  end.

(** [self.password], an attribute that may be missing *)
Definition get_password (h : SMTPHandler) : res pyval :=
  match password h with
  | Some p => Val p
  | None => Exc AttributeError
  end.

(** [secure is not None] *)
Definition is_not_None (v : pyval) : bool :=
  match v with
  | PyNone => false
  | _ => true
  end.

(** [InovatSMTPHandler.__emit], lines 115-139. *)
Definition __emit (self : InovatSMTPHandler) : M env unit :=
  (let h := base self in
   let port := mailport h in
   let port := if negb (truthy port) then PyInt SMTP_PORT else port in
   smtp (SMTP_open (mailhost h) port (timeout h)) ;;
   to <- lift (py_join "," (toaddrs h)) ;;
   lines <- lift (format_records self (__buffer self)) ;;
   let msg := {| msg_From := fromaddr h; msg_To := to;
                 msg_Subject := subject h; msg_Date := localtime P;
                 content := String.concat newline lines |} in
   (if truthy (username h) then
      (if is_not_None (secure h) then
         smtp SMTP_ehlo ;;
         star <- lift (py_iter (secure h)) ;;
         smtp (SMTP_starttls star) ;;
         smtp SMTP_ehlo
       else ret tt) ;;
      pw <- lift (get_password h) ;;
      smtp (SMTP_login (username h) pw)
    else ret tt) ;;
   smtp (SMTP_send_message msg) ;;
   smtp SMTP_quit)%py.

(** Calling the bound method [self.__emit] with further positional
    arguments: [def __emit(self)] has no parameter to bind them to. *)
Definition call___emit (self : InovatSMTPHandler) (args : list InovatSMTPHandler)
  : M env unit :=
  match args with
  | [] => __emit self
  | _ :: _ => raise TypeError
  end.

(** [executor.submit(fn, args...).result()]: the task, [fn] applied to the
    arguments, runs on a worker while the caller waits; what it raised is
    re-raised by [result()]. *)
Definition submit_result {A} (fn : list A -> M env unit) (args : list A) : M env unit :=
  fn args.

(** The [try] block of [emit] (lines 107-111); the lock is held throughout. *)
Definition emit_body (self : InovatSMTPHandler) (record : LogRecord) (e : env)
  : res unit * InovatSMTPHandler * env :=
  let self := set_buffer self (__buffer self ++ [record]) in
  match py_int_ge (Z.of_nat (length (__buffer self))) (__buffer_size self) with
  | Exc x => (Exc x, self, e)
  | Val false => (Val tt, self, e)
  | Val true =>
      match submit_result (call___emit self) [self] (note_submit (__buffer self) e) with
      | (Val _, e') => (Val tt, set_buffer self [], e')
      | (Exc x, e') => (Exc x, self, e')
      end
  end.

(** [InovatSMTPHandler.emit], lines 105-113. *)
Definition emit (self : InovatSMTPHandler) (record : LogRecord) (e : env)
  : res unit * InovatSMTPHandler * env :=
  match emit_body self record e with
  | (Exc x, self', e') =>
      if is_Exception x then (Val tt, self', handleError record x e')
      else (Exc x, self', e')
  | (Val _, self', e') => (Val tt, self', e')
  end.

(** A sequence of [emit] calls; stops at the first that raises. *)
Fixpoint emit_all (self : InovatSMTPHandler) (records : list LogRecord) (e : env)
  : res unit * InovatSMTPHandler * env :=
  match records with
  | [] => (Val tt, self, e)
  | record :: rest =>
      match emit self record e with
      | (Val _, self', e') => emit_all self' rest e'
      | (Exc x, self', e') => (Exc x, self', e')
      end
  end.

End Handler.

(** ** The logger facade: [BaseLogger] and [SMTPLogger] *)

(** [logging._checkLevel(level)] *)
Definition _nameToLevel : list (string * Z) :=
  [("CRITICAL", CRITICAL); ("FATAL", CRITICAL); ("ERROR", ERROR);
   ("WARN", WARNING); ("WARNING", WARNING); ("INFO", INFO);
   ("DEBUG", DEBUG); ("NOTSET", NOTSET)].

Definition _checkLevel (lv : pyval) : res Z :=
  match lv with
  | PyInt z => Val z
  | PyBool b => Val (if b then 1 else 0)
  | PyStr s =>
      match list_find (fun nl => nl.1 = s) _nameToLevel with
      | Some (_, (_, z)) => Val z
      | None => Exc ValueError
      end
  | _ => Exc TypeError
  end.

(** A configuration object, by the attributes it has.  The source declares
    [SMTPLoggerConfiguration] (lines 16-17) without any field, so an
    instance of the class as declared has none; reading an attribute an
    object does not have raises [AttributeError]. *)
Record SMTPLoggerConfiguration : Type := { attributes : gmap string pyval }.

Definition getattr (c : SMTPLoggerConfiguration) (name : string) : res pyval :=
  match attributes c !! name with
  | Some v => Val v
  | None => Exc AttributeError
  end.

(** [SMTPLoggerConfiguration(...)] for the class as declared. *)
Definition declared_configuration : SMTPLoggerConfiguration := {| attributes := ∅ |}.

(** The twelve values [configure] and [log] read from the configuration
    (lines 149-164 and 52), for an object that has them all. *)
Record configuration_values : Type := {
  cfg_name : string;
  cfg_format : pyval;
  cfg_date_format : pyval;
  cfg_mailhost : pyval;
  cfg_fromaddr : pyval;
  cfg_toaddrs : pyval;
  cfg_subject : pyval;
  cfg_credentials : pyval;
  cfg_secure : pyval;
  cfg_timeout : pyval;
  cfg_buffer_size : Z;
  cfg_log_level : Z
}.

Definition with_values (v : configuration_values) : SMTPLoggerConfiguration :=
  {| attributes :=
       list_to_map
         [ ("name", PyStr (cfg_name v));
           ("format", cfg_format v);
           ("date_format", cfg_date_format v);
           ("mailhost", cfg_mailhost v);
           ("fromaddr", cfg_fromaddr v);
           ("toaddrs", cfg_toaddrs v);
           ("subject", cfg_subject v);
           ("credentials", cfg_credentials v);
           ("secure", cfg_secure v);
           ("timeout", cfg_timeout v);
           ("buffer_size", PyInt (cfg_buffer_size v));
           ("log_level", PyInt (cfg_log_level v)) ] |}.

(** [_logger] is [None] or a reference to a logger of the registry. *)
Record SMTPLogger : Type := {
  _configuration : SMTPLoggerConfiguration;
  _logger : option string
}.

(** [BaseLogger.__init__], lines 27-29, reached through [SMTPLogger.__init__]. *)
Definition SMTPLogger_init (configuration : SMTPLoggerConfiguration) : SMTPLogger :=
  {| _configuration := configuration; _logger := None |}.

(** [return self._logger is not None] *)
Definition configured (self : SMTPLogger) : bool :=
  match _logger self with
  | None => false
  | Some _ => true
  end.

(** The keyword arguments [configure] passes to the handler, lines 155-162. *)
Definition handler_kwargs (c : configuration_values) : gmap string pyval :=
  list_to_map
    [ ("mailhost", cfg_mailhost c);
      ("fromaddr", cfg_fromaddr c);
      ("toaddrs", cfg_toaddrs c);
      ("subject", cfg_subject c);
      ("credentials", cfg_credentials c);
      ("secure", cfg_secure c);
      ("timeout", cfg_timeout c);
      ("buffer_size", PyInt (cfg_buffer_size c)) ].

(** The same, read off a configuration object attribute by attribute in
    the order of lines 155-162. *)
Definition read_handler_kwargs (c : SMTPLoggerConfiguration) : res (gmap string pyval) :=
  mailhost ← getattr c "mailhost";
  fromaddr ← getattr c "fromaddr";
  toaddrs ← getattr c "toaddrs";
  subject ← getattr c "subject";
  credentials ← getattr c "credentials";
  secure ← getattr c "secure";
  timeout ← getattr c "timeout";
  buffer_size ← getattr c "buffer_size";
  Val (list_to_map
         [ ("mailhost", mailhost);
           ("fromaddr", fromaddr);
           ("toaddrs", toaddrs);
           ("subject", subject);
           ("credentials", credentials);
           ("secure", secure);
           ("timeout", timeout);
           ("buffer_size", buffer_size) ]).

Inductive logging_call : Type :=
| call_log | call_debug | call_info | call_warning | call_error | call_critical.


Section Facade.

Variable P : platform.

(** [logging.Formatter(fmt=, datefmt=)] checks the format string. *)
Definition Formatter_init (f d : pyval) : res Formatter :=
  if Formatter_validate P f then Val {| fmt := f; datefmt := d |} else Exc ValueError.

(** The [try] block of [configure], lines 148-166.  The name is read and
    the logger looked up before [self._logger] is assigned; what follows
    the assignment cannot undo it. *)
Definition configure_body (self : SMTPLogger) (w : world)
  : res unit * SMTPLogger * world :=
  let c := _configuration self in
  match getattr c "name" with
  | Exc x => (Exc x, self, w)
  | Val name =>
      match getLogger_any name w with
      | (Exc x, w) => (Exc x, self, w)
      | (Val key, w) =>
          let self := {| _configuration := c; _logger := Some key |} in
          let rest : res world :=
            f ← getattr c "format";
            d ← getattr c "date_format";
            logger_format ← Formatter_init f d;
            kwargs ← read_handler_kwargs c;
            logger_handler ← InovatSMTPHandler_init [] kwargs;
            lv ← getattr c "log_level";
            z ← _checkLevel lv;
            let logger_handler := setLevel logger_handler z in
            let logger_handler := setFormatter logger_handler logger_format in
            Val (addHandler key logger_handler w) in
          match rest with
          | Val w' => (Val tt, self, w')
          | Exc x => (Exc x, self, w)
          end
      end
  end.

(** [SMTPLogger.configure], lines 146-168: whatever the [try] block raises
    is replaced by a bare [Exception]. *)
Definition configure (self : SMTPLogger) (w : world) : res unit * SMTPLogger * world :=
  match configure_body self w with
  | (Exc x, self', w') =>
      if is_Exception x then (Exc Exception, self', w') else (Exc x, self', w')
  | (Val _, self', w') => (Val tt, self', w')
  end.

(** A method call on [self._logger]; on [None] there is no such attribute. *)
Definition on_logger (ref : option string) (lv : pyval) (message : string) : M world unit :=
  match ref with
  | None => raise AttributeError
  | Some key => Logger_log P key lv message
  end.

(** The [logger] property, lines 31-35. *)
Definition logger (self : SMTPLogger) : res (option string) :=
  if negb (configured self) then Exc Exception else Val (_logger self).

(** Lines 49-77: guard, then delegate.  [debug], [info], ... of a logger
    are its [log] at their level. *)
Definition log (self : SMTPLogger) (message : string) : M world unit :=
  if negb (configured self) then raise Exception
  else (lv <- lift (getattr (_configuration self) "log_level") ;;
        on_logger (_logger self) lv message)%py.

Definition debug (self : SMTPLogger) (message : string) : M world unit :=
  if negb (configured self) then raise Exception
  else on_logger (_logger self) (PyInt DEBUG) message.

Definition info (self : SMTPLogger) (message : string) : M world unit :=
  if negb (configured self) then raise Exception
  else on_logger (_logger self) (PyInt INFO) message.

Definition warning (self : SMTPLogger) (message : string) : M world unit :=
  if negb (configured self) then raise Exception
  else on_logger (_logger self) (PyInt WARNING) message.

Definition error (self : SMTPLogger) (message : string) : M world unit :=
  if negb (configured self) then raise Exception
  else on_logger (_logger self) (PyInt ERROR) message.

Definition critical (self : SMTPLogger) (message : string) : M world unit :=
  if negb (configured self) then raise Exception
  else on_logger (_logger self) (PyInt CRITICAL) message.

Definition run_call (c : logging_call) : SMTPLogger -> string -> M world unit :=
  match c with
  | call_log => log
  | call_debug => debug
  | call_info => info
  | call_warning => warning
  | call_error => error
  | call_critical => critical
  end.

End Facade.

(** ** Sample data *)

Definition rec_a : LogRecord := {| levelno := ERROR; msg := "a" |}.
Definition rec_b : LogRecord := {| levelno := ERROR; msg := "b" |}.
Definition rec_c : LogRecord := {| levelno := ERROR; msg := "c" |}.

(** A platform on which nothing fails: records render as their message and
    the endpoint accepts every call. *)
Definition reachable : platform :=
  {| Formatter_format := fun _ r => Val (msg r);
     Formatter_validate := fun _ => true;
     net := fun _ => None;
     localtime := "Wed, 04 Nov 2026 10:00:00 +0000";
     Logger_log := fun _ _ _ w => (Val tt, w) |}.

(** The same with an endpoint that refuses connections. *)
Definition unreachable : platform :=
  {| Formatter_format := fun _ r => Val (msg r);
     Formatter_validate := fun _ => true;
     net := fun c => match c with SMTP_open _ _ _ => Some OSError | _ => None end;
     localtime := "Wed, 04 Nov 2026 10:00:00 +0000";
     Logger_log := fun _ _ _ w => (Val tt, w) |}.

Definition sample_base : SMTPHandler :=
  {| level := NOTSET; formatter := None;
     mailhost := PyStr "smtp.example.com"; mailport := PyNone;
     username := PyNone; password := None;
     fromaddr := PyStr "app@example.com";
     toaddrs := PyList [PyStr "ops@example.com"; PyStr "dev@example.com"];
     subject := PyStr "logs"; secure := PyNone; timeout := PyFloat 5 |}.

(** A handler as [__init__] means to leave it: empty buffer, given capacity. *)
Definition sample_handler (capacity : Z) : InovatSMTPHandler :=
  {| base := sample_base;
     __buffer_size := PyInt capacity;
     __buffer := [];
     __executor := {| max_workers := 10 |} |}.

Definition sample_configuration (capacity : Z) : configuration_values :=
  {| cfg_name := "app";
     cfg_format := PyStr "%(message)s";
     cfg_date_format := PyNone;
     cfg_mailhost := PyStr "smtp.example.com";
     cfg_fromaddr := PyStr "app@example.com";
     cfg_toaddrs := PyList [PyStr "ops@example.com"];
     cfg_subject := PyStr "logs";
     cfg_credentials := PyNone;
     cfg_secure := PyNone;
     cfg_timeout := PyFloat 5;
     cfg_buffer_size := capacity;
     cfg_log_level := INFO |}.


(** A handler with capacity 2 that already holds ["a"]. *)
Definition holding_a : InovatSMTPHandler := set_buffer (sample_handler 2) [rec_a].

(** ** Readings of the specification used below *)

(** At-most-once delivery at two consecutive calls: if the first call
    dispatched [batch] and the flush failed, the buffer no longer holds the
    batch and no flush dispatched by the second call carries one of its
    records. *)
Definition at_most_once (P : platform) (self : InovatSMTPHandler)
    (record record' : LogRecord) (e : env) : Prop :=
  let '(_, self1, e1) := emit P self record e in
  let '(_, _, e2) := emit P self1 record' e1 in
  forall batch x,
    submitted e1 = submitted e ++ [batch] ->
    reported e1 = reported e ++ [(record, x)] ->
    __buffer self1 = [] /\
    forall later, In later (skipn (length (submitted e1)) (submitted e2)) ->
      forall r, In r batch -> ~ In r later.


(** The messages handed over by the successful [send_message] calls of a log. *)
Fixpoint sent (calls : list (smtp_call * option exn)) : list EmailMessage :=
  match calls with
  | [] => []
  | (SMTP_send_message m, None) :: rest => m :: sent rest
  | _ :: rest => sent rest
  end.

(** ** Further parts of the sources *)

(** [isinstance(v, (int, float))], the values [len(...) >= v] accepts. *)
Definition is_number (v : pyval) : bool :=
  match v with
  | PyBool _ | PyInt _ | PyFloat _ => true
  | _ => false
  end.

(** [SMTPLogger.from_dict], lines 170-180.  What the schema class makes of
    the dictionary is a parameter; either [except] clause replaces the
    exception by a bare [Exception]. *)
Definition from_dict (validate : gmap string pyval -> res SMTPLoggerConfiguration)
    (configuration_dict : gmap string pyval) : res SMTPLogger :=
  match validate configuration_dict with
  | Val configuration => Val (SMTPLogger_init configuration)
  | Exc x => if is_Exception x then Exc Exception else Exc x
  end.

(** Binding the arguments of a call to the positional-or-keyword parameters
    of a function (the receiver left out): positional arguments fill the
    parameters in order; a keyword must name a parameter not yet filled;
    every required parameter must end up filled. *)
Fixpoint bind_positional (params : list string) (args : list pyval)
  : res (gmap string pyval) :=
  match args, params with
  | [], _ => Val ∅
  | a :: args', p :: params' =>
      m ← bind_positional params' args'; Val (<[p := a]> m)
  | _ :: _, [] => Exc TypeError
  end.

Definition bind_arguments (params required : list string)
    (args : list pyval) (kwargs : gmap string pyval) : res (gmap string pyval) :=
  pos ← bind_positional params args;
  if negb (bool_decide (dom kwargs ⊆ (list_to_set params : gset string)))
  then Exc TypeError
  else if negb (bool_decide (pos ##ₘ kwargs))
  then Exc TypeError
  else if negb (bool_decide ((list_to_set required : gset string) ⊆ dom (pos ∪ kwargs)))
  then Exc TypeError
  else Val (pos ∪ kwargs).

(** [logging.Logger.__init__(self, name, level=NOTSET)]: the name and the
    checked level. *)
Definition Logger_init (args : list pyval) (kwargs : gmap string pyval)
  : res (pyval * Z) :=
  b ← bind_arguments ["name"; "level"] ["name"] args kwargs;
  lv ← _checkLevel (default (PyInt NOTSET) (b !! "level"));
  Val (default PyNone (b !! "name"), lv).

(** ** [redis_logger.py] *)

(** The configuration schema [SRedisLogger] is imported from a module that
    is not among the sources; the constructor reads its [name] only. *)
Record SRedisLogger : Type := { sr_name : string }.

(** [RedisHandler]: its [__init__] (lines 39-41) takes four parameters and
    sets nothing. *)
Inductive RedisHandler : Type := RedisHandler_object.

Definition RedisHandler_init (args : list pyval) (kwargs : gmap string pyval)
  : res RedisHandler :=
  _ ← bind_arguments ["host"; "port"; "username"; "password"]
        ["host"; "port"; "username"; "password"] args kwargs;
  Val RedisHandler_object.

Record RedisLogger : Type := {
  redis_name : pyval;
  redis_level : Z;
  _config : SRedisLogger;
  redis_logger : string;      (* [self._logger], a logger of the registry *)
  _handler : RedisHandler
}.

(** [RedisLogger.__init__(self, *args, config, **kwargs)], lines 14-21: the
    same [args] and [kwargs] go to [logging.Logger.__init__] and to
    [RedisHandler]. *)
Definition RedisLogger_init (args : list pyval) (config : SRedisLogger)
    (kwargs : gmap string pyval) : M world RedisLogger := fun w =>
  match Logger_init args kwargs with
  | Exc x => (Exc x, w)
  | Val (name, lv) =>
      let '(key, w) := getLogger (sr_name config) w in
      match RedisHandler_init args kwargs with
      | Exc x => (Exc x, w)
      | Val h =>
          (Val {| redis_name := name; redis_level := lv; _config := config;
                  redis_logger := key; _handler := h |}, w)
      end
  end.

(** ** Shapes of runs, for the statements on [__emit] *)

(** A computation that only adds calls to the SMTP log. *)
Definition appends_calls {A} (m : M env A) : Prop :=
  forall e, exists calls,
    (m e).2 = {| smtp_log := smtp_log e ++ calls;
                 reported := reported e;
                 submitted := submitted e |}.

(** Whether a log holds a [quit] that went through. *)
Fixpoint closed (calls : list (smtp_call * option exn)) : bool :=
  match calls with
  | [] => false
  | (SMTP_quit, None) :: _ => true
  | _ :: rest => closed rest
  end.

(** A handler with a non-numeric capacity. *)
Definition no_capacity : InovatSMTPHandler :=
  {| base := sample_base; __buffer_size := PyNone; __buffer := [];
     __executor := {| max_workers := 10 |} |}.

(** A handler with credentials, holding ["a"]. *)
Definition with_login (sec : pyval) : InovatSMTPHandler :=
  {| base :=
       {| level := NOTSET; formatter := None;
          mailhost := PyStr "smtp.example.com"; mailport := PyInt 587;
          username := PyStr "user"; password := Some (PyStr "secret");
          fromaddr := PyStr "app@example.com";
          toaddrs := PyList [PyStr "ops@example.com"];
          subject := PyStr "logs"; secure := sec; timeout := PyFloat 5 |};
     __buffer_size := PyInt 10; __buffer := [rec_a];
     __executor := {| max_workers := 10 |} |}.

(** A platform on which [quit] fails after everything else went through. *)
Definition quit_fails : platform :=
  {| Formatter_format := fun _ r => Val (msg r);
     Formatter_validate := fun _ => true;
     net := fun c => match c with SMTP_quit => Some SMTPException | _ => None end;
     localtime := "Wed, 04 Nov 2026 10:00:00 +0000";
     Logger_log := fun _ _ _ w => (Val tt, w) |}.

(** Four positional constructor arguments, the attributes they lead to,
    and a handler around such attributes that holds ["a"]. *)
Definition positional (host to : pyval) : list pyval :=
  [host; PyStr "app@example.com"; to; PyStr "logs"].

Definition stored (host port user : pyval) (pass : option pyval) (to sec : pyval)
  : SMTPHandler :=
  {| level := NOTSET; formatter := None;
     mailhost := host; mailport := port;
     username := user; password := pass;
     fromaddr := PyStr "app@example.com"; toaddrs := to;
     subject := PyStr "logs"; secure := sec; timeout := PyFloat 5 |}.

Definition holding (s : SMTPHandler) : InovatSMTPHandler :=
  {| base := s; __buffer_size := PyInt 10; __buffer := [rec_a];
     __executor := {| max_workers := 10 |} |}.

(** ** Properties of [emit] *)

Section EmitProperties.

Variable P : platform.

Lemma py_int_ge_raises n v x : py_int_ge n v = Exc x -> x = TypeError.
Proof. destruct v; simpl; congruence. Qed.

Lemma py_int_ge_mono n v :
  py_int_ge n v = Val true -> py_int_ge (n + 1) v = Val true.
Proof.
  destruct v as [ | b | c | q | | | | ]; simpl; try discriminate;
    intros [= H]; f_equal.
  - destruct b; apply Z.leb_le in H; apply Z.leb_le; lia.
  - apply Z.leb_le in H; apply Z.leb_le; lia.
  - apply Qle_bool_iff in H. apply Qle_bool_iff.
    eapply Qle_trans; [exact H |]. rewrite <- Zle_Qle. lia.
Qed.

Lemma length_snoc (b : list LogRecord) r :
  Z.of_nat (length (b ++ [r])) = Z.of_nat (length b) + 1.
Proof. rewrite length_app. simpl. lia. Qed.

(** The dispatched task never gets as far as [__emit]'s body: [emit]
    submits the bound method together with [self]. *)
Lemma dispatch_raises self e :
  submit_result (call___emit P self) [self] e = (Exc TypeError, e).
Proof. reflexivity. Qed.

(** What one [emit] call does, by the outcome of the threshold test. *)
Lemma emit_below self record e :
  py_int_ge (Z.of_nat (length (__buffer self)) + 1) (__buffer_size self) = Val false ->
  emit P self record e = (Val tt, set_buffer self (__buffer self ++ [record]), e).
Proof.
  intros H. unfold emit, emit_body. cbn [__buffer __buffer_size set_buffer].
  rewrite length_snoc, H. reflexivity.
Qed.

Lemma emit_at_threshold self record e :
  py_int_ge (Z.of_nat (length (__buffer self)) + 1) (__buffer_size self) = Val true ->
  emit P self record e =
    (Val tt, set_buffer self (__buffer self ++ [record]),
     handleError record TypeError (note_submit (__buffer self ++ [record]) e)).
Proof.
  intros H. unfold emit, emit_body. cbn [__buffer __buffer_size set_buffer].
  rewrite length_snoc, H. reflexivity.
Qed.

Lemma emit_bad_threshold self record e x :
  py_int_ge (Z.of_nat (length (__buffer self)) + 1) (__buffer_size self) = Exc x ->
  emit P self record e =
    (Val tt, set_buffer self (__buffer self ++ [record]),
     handleError record TypeError e).
Proof.
  intros H. pose proof (py_int_ge_raises _ _ _ H) as ->.
  unfold emit, emit_body. cbn [__buffer __buffer_size set_buffer].
  rewrite length_snoc, H. reflexivity.
Qed.

Lemma emit_body_exceptions self record e x self' e' :
  emit_body P self record e = (Exc x, self', e') -> is_Exception x = true.
Proof.
  unfold emit_body. cbn [__buffer __buffer_size set_buffer].
  destruct (py_int_ge _ _) as [[|]|y] eqn:H.
  - rewrite dispatch_raises. intros [= <- _ _]. reflexivity.
  - discriminate.
  - intros [= <- _ _]. apply py_int_ge_raises in H. subst y. reflexivity.
Qed.

(** C1. [emit] never raises to its caller: whatever the [try] block raised
    during the append, the threshold test or the dispatched flush is
    caught and handed to [handleError] with the record, and [emit]
    returns normally. *)
Theorem emit_never_raises self record e :
  exists self' e',
    emit P self record e = (Val tt, self', e') /\
    forall x s1 e1,
      emit_body P self record e = (Exc x, s1, e1) ->
      self' = s1 /\ e' = handleError record x e1.
Proof.
  unfold emit.
  destruct (emit_body P self record e) as [[[[]|x] s1] e1] eqn:H.
  - exists s1, e1. split; [reflexivity | discriminate].
  - rewrite (emit_body_exceptions _ _ _ _ _ _ H).
    exists s1, (handleError record x e1). split; [reflexivity |].
    intros ? ? ? [= <- <- <-]. auto.
Qed.

End EmitProperties.

Section FlushProperties.

Variable P : platform.

Lemma set_buffer_twice self b b' : set_buffer (set_buffer self b) b' = set_buffer self b'.
Proof. reflexivity. Qed.

(** Once the threshold has been reached it is reached at every later
    call, and each call dispatches the whole buffer again. *)
Lemma emit_after_threshold self record record' e :
  py_int_ge (Z.of_nat (length (__buffer self)) + 1) (__buffer_size self) = Val true ->
  emit P (set_buffer self (__buffer self ++ [record])) record' e =
    (Val tt, set_buffer self (__buffer self ++ [record; record']),
     handleError record' TypeError
       (note_submit (__buffer self ++ [record; record']) e)).
Proof.
  intros H. rewrite emit_at_threshold.
  - cbn [__buffer set_buffer]. rewrite set_buffer_twice, <- app_assoc. reflexivity.
  - cbn [__buffer __buffer_size set_buffer]. rewrite length_snoc.
    apply py_int_ge_mono, H.
Qed.

(** C7. The buffer is emptied only past a flush that returned: when the
    threshold is reached and the waited-on flush raises, [emit] goes to its
    handler with the buffer as it was after the append, and the next call,
    which reaches the threshold again, dispatches a flush of a buffer that
    still starts with those records. *)
Theorem failed_flush_keeps_buffer self record e x e1 :
  let self1 := set_buffer self (__buffer self ++ [record]) in
  py_int_ge (Z.of_nat (length (__buffer self1))) (__buffer_size self1) = Val true ->
  submit_result (call___emit P self1) [self1] (note_submit (__buffer self1) e) = (Exc x, e1) ->
  emit P self record e = (Val tt, self1, handleError record x e1) /\
  __buffer self1 = __buffer self ++ [record] /\
  forall record' e2,
    exists e2',
      emit P self1 record' e2 =
        (Val tt, set_buffer self (__buffer self ++ [record; record']), e2') /\
      submitted e2' = submitted e2 ++ [(__buffer self ++ [record]) ++ [record']].
Proof.
  intros self1 Hge Hflush. subst self1.
  cbn [__buffer __buffer_size set_buffer] in Hge, Hflush.
  rewrite length_snoc in Hge.
  rewrite dispatch_raises in Hflush. injection Hflush as <- <-.
  split; [apply emit_at_threshold, Hge |].
  split; [reflexivity |].
  intros record' e2. eexists. split.
  - apply emit_after_threshold, Hge.
  - cbn. rewrite <- app_assoc. reflexivity.
Qed.

(** C2, as the code has it.  When the flush dispatched by an [emit] call
    fails, [handleError] is invoked once, by that call and with its
    record; the records of the batch are not dropped but stay in the
    buffer, and the next [emit] call dispatches a flush that carries them
    again together with its own record. *)
Theorem failed_flush_reported_once_and_retried self record e x e1 :
  let self1 := set_buffer self (__buffer self ++ [record]) in
  py_int_ge (Z.of_nat (length (__buffer self1))) (__buffer_size self1) = Val true ->
  submit_result (call___emit P self1) [self1] (note_submit (__buffer self1) e) = (Exc x, e1) ->
  let '(r, self', e') := emit P self record e in
  r = Val tt /\
  reported e1 = reported e /\
  reported e' = reported e ++ [(record, x)] /\
  __buffer self' = __buffer self ++ [record] /\
  forall record' e2,
    let '(_, self2, e2') := emit P self' record' e2 in
    submitted e2' = submitted e2 ++ [__buffer self ++ [record; record']] /\
    __buffer self2 = __buffer self ++ [record; record'].
Proof.
  intros self1 Hge Hflush. subst self1.
  cbn [__buffer __buffer_size set_buffer] in Hge, Hflush.
  rewrite length_snoc in Hge.
  rewrite dispatch_raises in Hflush. injection Hflush as <- <-.
  rewrite emit_at_threshold by assumption.
  repeat split.
  intros record' e2. rewrite emit_after_threshold by assumption.
  repeat split.
Qed.

(** A run of [emit] calls never raises and only ever grows the buffer. *)
Lemma emit_shape self record e :
  exists e', emit P self record e = (Val tt, set_buffer self (__buffer self ++ [record]), e').
Proof.
  destruct (py_int_ge (Z.of_nat (length (__buffer self)) + 1) (__buffer_size self))
    as [[|]|x] eqn:H.
  - rewrite emit_at_threshold by assumption. eauto.
  - rewrite emit_below by assumption. eauto.
  - erewrite emit_bad_threshold by eassumption. eauto.
Qed.

Lemma emit_all_buffer self records e :
  exists e', emit_all P self records e = (Val tt, set_buffer self (__buffer self ++ records), e').
Proof.
  revert self e. induction records as [| r rest IH]; intros self e; simpl.
  - exists e. rewrite app_nil_r. destruct self; reflexivity.
  - destruct (emit_shape self r e) as [e1 ->].
    destruct (IH (set_buffer self (__buffer self ++ [r])) e1) as [e2 ->].
    exists e2. cbn [__buffer set_buffer]. rewrite set_buffer_twice, <- app_assoc. reflexivity.
Qed.

(** With an integer capacity [c], a run of [n] calls on a buffer of length
    [b] dispatches a flush at every call from the one that reaches [c] on:
    [max 0 (min n (n + b - c + 1))] of them, [n - c + 1] when the buffer
    starts empty and [1 <= c <= n]. *)
Lemma emit_all_flush_count self records e c :
  __buffer_size self = PyInt c ->
  let n := Z.of_nat (length records) in
  let b := Z.of_nat (length (__buffer self)) in
  Z.of_nat (length (submitted (emit_all P self records e).2)) =
    Z.of_nat (length (submitted e)) + Z.max 0 (Z.min n (n + b - c + 1)).
Proof.
  revert self e. induction records as [| r rest IH]; intros self e Hc; cbn zeta.
  - simpl. lia.
  - cbn [emit_all].
    assert (Hc' : __buffer_size (set_buffer self (__buffer self ++ [r])) = PyInt c)
      by exact Hc.
    pose proof (fun e1 => IH (set_buffer self (__buffer self ++ [r])) e1 Hc') as IH'.
    cbn zeta in IH'. cbn [__buffer set_buffer] in IH'. rewrite length_snoc in IH'.
    destruct (c <=? Z.of_nat (length (__buffer self)) + 1) eqn:Hle.
    + rewrite emit_at_threshold by (rewrite Hc; simpl; congruence).
      rewrite IH'. cbn [submitted handleError note_submit].
      rewrite length_app. cbn [length]. apply Z.leb_le in Hle.
      lia.
    + rewrite emit_below by (rewrite Hc; simpl; congruence).
      rewrite IH'. apply Z.leb_gt in Hle. cbn [length]. lia.
Qed.

(** C4, at the failing input.  Capacity 2, buffer ["a"], [emit("b")]: the
    append reaches the capacity, the flush is dispatched and raises, and
    the call ends with both records still buffered and nothing sent. *)
Theorem reaching_capacity_leaves_buffer_full :
  emit P holding_a rec_b env0 =
    (Val tt, set_buffer (sample_handler 2) [rec_a; rec_b],
     {| smtp_log := [];
        reported := [(rec_b, TypeError)];
        submitted := [[rec_a; rec_b]] |}).
Proof. reflexivity. Qed.

(** C5, at the failing input.  Capacity 2 and emits of "a", "b", "c": two
    flushes are dispatched, neither sends anything, and the buffer ends as
    ["a"; "b"; "c"]. *)
Theorem three_emits_two_flush_attempts :
  emit_all P (sample_handler 2) [rec_a; rec_b; rec_c] env0 =
    (Val tt, set_buffer (sample_handler 2) [rec_a; rec_b; rec_c],
     {| smtp_log := [];
        reported := [(rec_b, TypeError); (rec_c, TypeError)];
        submitted := [[rec_a; rec_b]; [rec_a; rec_b; rec_c]] |}).
Proof. reflexivity. Qed.

End FlushProperties.

(** ** Properties of [__emit] *)

Section DeliveryProperties.

Variable P : platform.

Lemma format_records_Forall2 self records lines :
  format_records P self records = Val lines ->
  Forall2 (fun r s => format P self r = Val s) records lines.
Proof.
  revert lines. induction records as [| r rest IH]; simpl; intros lines H.
  - injection H as <-. constructor.
  - destruct (format P self r) as [s|] eqn:Hr; simpl in H; [| discriminate].
    destruct (format_records P self rest) as [ss|] eqn:Hrest; simpl in H; [| discriminate].
    injection H as <-. constructor; auto.
Qed.

Lemma bind_inv {S A B} (m : M S A) (k : A -> M S B) s b s' :
  bind m k s = (Val b, s') ->
  exists a s1, m s = (Val a, s1) /\ k a s1 = (Val b, s').
Proof.
  unfold bind. destruct (m s) as [[a|x] s1]; [eauto | discriminate].
Qed.

Lemma lift_inv {S A} (r : res A) (s : S) a s' :
  lift r s = (Val a, s') -> r = Val a /\ s' = s.
Proof. unfold lift. intros [= -> ->]. auto. Qed.

Lemma ret_inv {S A} (a0 : A) (s : S) a s' :
  ret a0 s = (Val a, s') -> s' = s.
Proof. unfold ret. intros [= _ ->]. auto. Qed.

Lemma smtp_inv c e u e' :
  smtp P c e = (Val u, e') -> smtp_log e' = smtp_log e ++ [(c, None)].
Proof.
  unfold smtp. destruct (net P c); [discriminate |].
  intros [= _ <-]. reflexivity.
Qed.

Ltac invert_run :=
  repeat match goal with
    | H : bind _ _ _ = (Val _, _) |- _ =>
        apply bind_inv in H as (? & ? & ? & H)
    | H : lift _ _ = (Val _, _) |- _ => apply lift_inv in H as [? ->]
    | H : ret _ _ = (Val _, _) |- _ => apply ret_inv in H as ->
    | H : smtp P _ _ = (Val _, _) |- _ => apply smtp_inv in H
    | H : (if ?b then _ else _) _ = (Val _, _) |- _ => destruct b eqn:?
    end.

(** C6. When [__emit] delivers, it sends exactly one message, and the body
    given to it is the formatted texts of the buffered records, one per
    record and in buffer order, joined by the newline character. *)
Theorem delivered_body_is_joined_records self e e' :
  __emit P self e = (Val tt, e') ->
  exists lines m calls,
    Forall2 (fun r s => format P self r = Val s) (__buffer self) lines /\
    content m = String.concat newline lines /\
    smtp_log e' = smtp_log e ++ calls /\
    sent calls = [m].
Proof.
  intros H. unfold __emit in H. cbv zeta in H. invert_run.
  all: match goal with
       | Hf : format_records P _ _ = Val ?lines |- _ =>
           exists lines;
           eexists {| content := String.concat newline lines |};
           eexists;
           (split; [apply format_records_Forall2, Hf |]);
           (split; [reflexivity |])
       end.
  all: split;
    [ repeat match goal with
        | Hl : smtp_log _ = _ |- _ => rewrite Hl; clear Hl
        end;
      repeat rewrite <- app_assoc; reflexivity
    | reflexivity ].
Qed.

End DeliveryProperties.

(** ** Construction and configuration *)

Section ConfigureProperties.

Variable P : platform.

Lemma unpack2_exceptions v x : unpack2 v = Exc x -> is_Exception x = true.
Proof.
  destruct v as [ | | | | | l | l | ]; simpl; try (intros [= <-]; reflexivity);
    destruct l as [| a [| b [| c l]]]; intros [= <-]; reflexivity.
Qed.

Lemma init_super_exceptions args kwargs x :
  init_super args kwargs = Exc x -> is_Exception x = true.
Proof.
  unfold init_super, SMTPHandler_init.
  destruct (is_list_or_tuple (arg_or_kwarg args 0 kwargs "maihost" (PyStr ""))).
  - destruct (unpack2 (arg_or_kwarg args 0 kwargs "maihost" (PyStr "")))
      as [[host port]|y] eqn:Hm; simpl.
    + destruct (is_list_or_tuple (kwargs_get kwargs "credentials" PyNone)); simpl.
      * destruct (unpack2 (kwargs_get kwargs "credentials" PyNone))
          as [[user pass]|z] eqn:Hc; simpl; [discriminate |].
        intros [= <-]. eapply unpack2_exceptions, Hc.
      * discriminate.
    + intros [= <-]. eapply unpack2_exceptions, Hm.
  - simpl. destruct (is_list_or_tuple (kwargs_get kwargs "credentials" PyNone)); simpl.
    + destruct (unpack2 (kwargs_get kwargs "credentials" PyNone))
        as [[user pass]|z] eqn:Hc; simpl; [discriminate |].
      intros [= <-]. eapply unpack2_exceptions, Hc.
    + discriminate.
Qed.

(** The constructor never returns: what [super().__init__] raises comes
    out as it is, and past it line 99 raises [TypeError]. *)
Lemma init_raises args kwargs :
  InovatSMTPHandler_init args kwargs =
    match init_super args kwargs with
    | Val _ => Exc TypeError
    | Exc x => Exc x
    end.
Proof.
  unfold InovatSMTPHandler_init. destruct (init_super args kwargs); reflexivity.
Qed.

Lemma init_exceptions args kwargs :
  exists x, InovatSMTPHandler_init args kwargs = Exc x /\ is_Exception x = true.
Proof.
  rewrite init_raises. destruct (init_super args kwargs) as [s|x] eqn:H.
  - exists TypeError. auto.
  - exists x. split; [reflexivity |]. eapply init_super_exceptions, H.
Qed.

Lemma the_logger_getLogger name w k :
  the_logger (getLogger name w).2 k = the_logger w k.
Proof.
  unfold getLogger, the_logger at 1. cbn [snd loggerDict].
  destruct (decide (logger_key name = k)) as [<- | Hne].
  - rewrite lookup_insert_eq. reflexivity.
  - rewrite lookup_insert_ne by assumption. reflexivity.
Qed.

Lemma getattr_raises c name x : getattr c name = Exc x -> x = AttributeError.
Proof. unfold getattr. destruct (attributes c !! name); congruence. Qed.

Lemma getLogger_any_raises name w x w' :
  getLogger_any name w = (Exc x, w') -> x = TypeError /\ w' = w.
Proof.
  unfold getLogger_any, getLogger.
  destruct name; cbn [truthy]; try discriminate;
    repeat match goal with
      | |- context [if ?b then _ else _] => destruct b
      end;
    try discriminate; intros [= <- <-]; auto.
Qed.

Lemma the_logger_getLogger_any name w key w' k :
  getLogger_any name w = (Val key, w') -> the_logger w' k = the_logger w k.
Proof.
  unfold getLogger_any.
  destruct name; cbn [truthy];
    repeat match goal with
      | |- context [if ?b then _ else _] => destruct b
      end;
    try discriminate; intros [= _ <-]; apply the_logger_getLogger.
Qed.

Lemma env_getLogger_any name w key w' :
  getLogger_any name w = (Val key, w') -> the_env w' = the_env w.
Proof.
  unfold getLogger_any, getLogger.
  destruct name; cbn [truthy];
    repeat match goal with
      | |- context [if ?b then _ else _] => destruct b
      end;
    try discriminate; intros [= _ <-]; reflexivity.
Qed.

Lemma read_handler_kwargs_raises c x :
  read_handler_kwargs c = Exc x -> x = AttributeError.
Proof.
  unfold read_handler_kwargs.
  repeat match goal with
    | |- context [getattr c ?n] =>
        let H := fresh "H" in
        destruct (getattr c n) eqn:H; cbn [mbind res_bind];
        [| apply getattr_raises in H; congruence]
    end.
  discriminate.
Qed.

(** For a configuration that has the twelve values, the keyword arguments
    read off it are those of [handler_kwargs]. *)
Lemma read_handler_kwargs_with_values v :
  read_handler_kwargs (with_values v) = Val (handler_kwargs v).
Proof. reflexivity. Qed.

(** [configure] on any facade, in any world: it raises the bare
    [Exception]; [_logger] is assigned if and only if the configuration has
    a name that [getLogger] accepts, and no handler is added. *)
Lemma configure_raises self w :
  configure P self w =
    match getattr (_configuration self) "name" with
    | Exc _ => (Exc Exception, self, w)
    | Val name =>
        match getLogger_any name w with
        | (Exc _, _) => (Exc Exception, self, w)
        | (Val key, w') =>
            (Exc Exception,
             {| _configuration := _configuration self; _logger := Some key |}, w')
        end
    end.
Proof.
  unfold configure, configure_body. cbv zeta.
  destruct (getattr (_configuration self) "name") as [name|x] eqn:Hn.
  2: { apply getattr_raises in Hn. subst x. reflexivity. }
  destruct (getLogger_any name w) as [[key|x] w'] eqn:Hg.
  2: { apply getLogger_any_raises in Hg as [-> ->]. reflexivity. }
  destruct (getattr (_configuration self) "format") as [f|x] eqn:Hf.
  2: { apply getattr_raises in Hf. subst x. reflexivity. }
  destruct (getattr (_configuration self) "date_format") as [d|x] eqn:Hd.
  2: { apply getattr_raises in Hd. subst x. reflexivity. }
  cbn [mbind res_bind]. unfold Formatter_init.
  destruct (Formatter_validate P f); [| reflexivity].
  cbn [mbind res_bind].
  destruct (read_handler_kwargs (_configuration self)) as [kwargs|x] eqn:Hk.
  2: { apply read_handler_kwargs_raises in Hk. subst x. reflexivity. }
  cbn [mbind res_bind].
  destruct (init_exceptions [] kwargs) as (x & -> & Hx).
  cbn [mbind res_bind]. rewrite Hx. reflexivity.
Qed.

Lemma configure_always_raises self w :
  exists self' w',
    configure P self w = (Exc Exception, self', w') /\
    (forall k, handlers (the_logger w' k) = handlers (the_logger w k)) /\
    the_env w' = the_env w.
Proof.
  rewrite configure_raises.
  destruct (getattr (_configuration self) "name") as [name|x]; [| eauto 6].
  destruct (getLogger_any name w) as [[key|x] w'] eqn:Hg; [| eauto 6].
  do 2 eexists. split; [reflexivity |]. split.
  - intros k. erewrite the_logger_getLogger_any by eassumption. reflexivity.
  - eapply env_getLogger_any, Hg.
Qed.

Lemma configure_without_name self w :
  attributes (_configuration self) !! "name" = None ->
  configure P self w = (Exc Exception, self, w).
Proof.
  intros H. rewrite configure_raises. unfold getattr. rewrite H. reflexivity.
Qed.

(** C3.  Constructing an [InovatSMTPHandler] raises for every argument
    combination, with the [TypeError] of the item assignment on [list]
    whenever [super().__init__] got through; every call of [configure]
    raises and registers no handler with any logger; and with a
    configuration of the class as declared, which has no attribute, the
    call leaves the facade as it was, so that a facade built on it never
    becomes configured. *)
Theorem constructor_and_configure_always_raise :
  (forall args kwargs,
      InovatSMTPHandler_init args kwargs =
        match init_super args kwargs with
        | Val _ => Exc TypeError
        | Exc x => Exc x
        end) /\
  (forall self w,
      exists self' w',
        configure P self w = (Exc Exception, self', w') /\
        (forall k, handlers (the_logger w' k) = handlers (the_logger w k)) /\
        the_env w' = the_env w) /\
  (forall self w,
      attributes (_configuration self) = ∅ ->
      configure P self w = (Exc Exception, self, w)) /\
  (forall w,
      configured (configure P (SMTPLogger_init declared_configuration) w).1.2 = false).
Proof.
  split; [apply init_raises |].
  split; [apply configure_always_raises |].
  split.
  - intros self w H. apply configure_without_name. rewrite H. apply lookup_empty.
  - intros w. rewrite configure_without_name by apply lookup_empty. reflexivity.
Qed.



End ConfigureProperties.

(** ** The keyword [mailhost] *)

(** With no positional argument the constructor looks the host up under
    the key ["maihost"], so whatever is passed as [mailhost=] has no effect
    on the attributes [super().__init__] sets. *)
Lemma init_super_ignores_mailhost (kwargs : gmap string pyval) (v : pyval) :
  init_super [] (<["mailhost" := v]> kwargs) = init_super [] kwargs.
Proof.
  unfold init_super, arg_or_kwarg, kwargs_get. cbn [lookup list_lookup].
  rewrite !lookup_insert_ne by discriminate. reflexivity.
Qed.

(** C10, at the failing input.  [configure] passes the host as the keyword
    [mailhost]; the attributes set from those keywords have the empty
    string as [mailhost], and a delivery run on them opens its connection
    to the empty host, on the default port and with the configured
    timeout. *)
Theorem keyword_mailhost_is_dropped :
  handler_kwargs (sample_configuration 10) !! "mailhost" = Some (PyStr "smtp.example.com") /\
  (forall v, init_super [] (<["mailhost" := v]> (handler_kwargs (sample_configuration 10)))
             = init_super [] (handler_kwargs (sample_configuration 10))) /\
  exists s,
    init_super [] (handler_kwargs (sample_configuration 10)) = Val s /\
    mailhost s = PyStr "" /\
    timeout s = PyFloat 5 /\
    hd_error
      (smtp_log
         (__emit reachable
            {| base := s; __buffer_size := PyInt 10; __buffer := [rec_a];
               __executor := {| max_workers := 10 |} |} env0).2)
    = Some (SMTP_open (PyStr "") (PyInt SMTP_PORT) (PyFloat 5), None).
Proof.
  split; [reflexivity |].
  split; [intros v; apply init_super_ignores_mailhost |].
  eexists. split; [reflexivity |]. repeat split.
Qed.

(** ** Concrete runs *)

(** C2 fails as stated: capacity 2, buffer ["a"], then [emit("b")] and
    [emit("c")].  The flush dispatched for ["a"; "b"] fails, yet both
    records stay buffered and the second call dispatches them again. *)
Lemma at_most_once_fails : ~ at_most_once unreachable holding_a rec_b rec_c env0.
Proof.
  unfold at_most_once.
  rewrite (emit_at_threshold unreachable holding_a rec_b env0 eq_refl).
  rewrite (emit_after_threshold unreachable holding_a rec_b rec_c _ eq_refl).
  intros H. destruct (H [rec_a; rec_b] TypeError eq_refl eq_refl) as [Hnil _].
  discriminate Hnil.
Qed.

Lemma failed_flush_reported_once_and_retried_witness :
  let '(r, self', e') := emit unreachable holding_a rec_b env0 in
  r = Val tt /\
  reported (note_submit [rec_a; rec_b] env0) = reported env0 /\
  reported e' = reported env0 ++ [(rec_b, TypeError)] /\
  __buffer self' = __buffer holding_a ++ [rec_b] /\
  forall record' e2,
    let '(_, self2, e2') := emit unreachable self' record' e2 in
    submitted e2' = submitted e2 ++ [__buffer holding_a ++ [rec_b; record']] /\
    __buffer self2 = __buffer holding_a ++ [rec_b; record'].
Proof.
  exact (failed_flush_reported_once_and_retried unreachable holding_a rec_b env0
           TypeError (note_submit [rec_a; rec_b] env0) eq_refl eq_refl).
Defined.

Lemma delivered_body_is_joined_records_witness :
  let self := set_buffer (sample_handler 2) [rec_a; rec_b] in
  exists lines m calls,
    Forall2 (fun r s => format reachable self r = Val s) (__buffer self) lines /\
    content m = String.concat newline lines /\
    smtp_log (__emit reachable self env0).2 = smtp_log env0 ++ calls /\
    sent calls = [m].
Proof.
  exact (delivered_body_is_joined_records reachable
           (set_buffer (sample_handler 2) [rec_a; rec_b]) env0
           (__emit reachable (set_buffer (sample_handler 2) [rec_a; rec_b]) env0).2
           eq_refl).
Defined.

Lemma failed_flush_keeps_buffer_witness :
  emit reachable holding_a rec_b env0 =
    (Val tt, set_buffer holding_a [rec_a; rec_b],
     handleError rec_b TypeError (note_submit [rec_a; rec_b] env0)) /\
  __buffer (set_buffer holding_a [rec_a; rec_b]) = [rec_a; rec_b] /\
  forall record' e2,
    exists e2',
      emit reachable (set_buffer holding_a [rec_a; rec_b]) record' e2 =
        (Val tt, set_buffer holding_a [rec_a; rec_b; record'], e2') /\
      submitted e2' = submitted e2 ++ [[rec_a; rec_b] ++ [record']].
Proof.
  exact (failed_flush_keeps_buffer reachable holding_a rec_b env0 TypeError
           (note_submit [rec_a; rec_b] env0) eq_refl eq_refl).
Defined.




(** ** Runs of [emit] *)

Section EmitRuns.

Variable P : platform.

Lemma emit_keeps_smtp_log self record e :
  exists e',
    emit P self record e = (Val tt, set_buffer self (__buffer self ++ [record]), e') /\
    smtp_log e' = smtp_log e.
Proof.
  destruct (py_int_ge (Z.of_nat (length (__buffer self)) + 1) (__buffer_size self))
    as [[|]|x] eqn:H.
  - rewrite emit_at_threshold by assumption. eauto.
  - rewrite emit_below by assumption. eauto.
  - erewrite emit_bad_threshold by eassumption. eauto.
Qed.

(** X1. No run of [emit] calls raises, drops a record or talks to the mail
    server: the buffer ends as the old buffer followed by every record of
    the run in order, and the SMTP log is as it was. *)
Theorem emit_run_never_sends self records e :
  exists e',
    emit_all P self records e =
      (Val tt, set_buffer self (__buffer self ++ records), e') /\
    smtp_log e' = smtp_log e.
Proof.
  revert self e. induction records as [| r rest IH]; intros self e.
  - exists e. simpl. rewrite app_nil_r. destruct self; auto.
  - cbn [emit_all].
    destruct (emit_keeps_smtp_log self r e) as (e1 & -> & H1).
    destruct (IH (set_buffer self (__buffer self ++ [r])) e1) as (e2 & -> & H2).
    exists e2. cbn [__buffer set_buffer].
    rewrite set_buffer_twice, <- app_assoc. split; [reflexivity | congruence].
Qed.

(** X2. With an integer capacity [c], a run of [n] calls on a buffer of
    length [b] dispatches [max 0 (min n (n + b - c + 1))] flushes, one at
    every call from the one that reaches [c] on, and [handleError] is
    invoked exactly as often. *)
Theorem emit_run_counts self records e c :
  __buffer_size self = PyInt c ->
  let n := Z.of_nat (length records) in
  let b := Z.of_nat (length (__buffer self)) in
  let e' := (emit_all P self records e).2 in
  Z.of_nat (length (submitted e')) =
    Z.of_nat (length (submitted e)) + Z.max 0 (Z.min n (n + b - c + 1)) /\
  Z.of_nat (length (reported e')) =
    Z.of_nat (length (reported e)) + Z.max 0 (Z.min n (n + b - c + 1)).
Proof.
  revert self e. induction records as [| r rest IH]; intros self e Hc; cbn zeta.
  - simpl. lia.
  - cbn [emit_all].
    assert (Hc' : __buffer_size (set_buffer self (__buffer self ++ [r])) = PyInt c)
      by exact Hc.
    pose proof (fun e1 => IH (set_buffer self (__buffer self ++ [r])) e1 Hc') as IH'.
    cbn zeta in IH'. cbn [__buffer set_buffer] in IH'. rewrite length_snoc in IH'.
    destruct (c <=? Z.of_nat (length (__buffer self)) + 1) eqn:Hle.
    + rewrite emit_at_threshold by (rewrite Hc; simpl; congruence).
      destruct (IH' (handleError r TypeError (note_submit (__buffer self ++ [r]) e)))
        as [-> ->].
      cbn [submitted reported handleError note_submit].
      rewrite !length_app. cbn [length]. apply Z.leb_le in Hle. lia.
    + rewrite emit_below by (rewrite Hc; simpl; congruence).
      destruct (IH' e) as [-> ->]. apply Z.leb_gt in Hle. cbn [length]. lia.
Qed.

(** X3. While the buffer stays below an integer capacity, [emit] only
    buffers: a run that ends with fewer than [c] records leaves the
    environment untouched (no flush, no error report, no SMTP call). *)
Theorem emit_run_below_capacity self records e c :
  __buffer_size self = PyInt c ->
  Z.of_nat (length (__buffer self)) + Z.of_nat (length records) < c ->
  emit_all P self records e =
    (Val tt, set_buffer self (__buffer self ++ records), e).
Proof.
  revert self. induction records as [| r rest IH]; intros self Hc Hlt.
  - simpl. rewrite app_nil_r. destruct self; reflexivity.
  - cbn [emit_all]. cbn [length] in Hlt.
    rewrite emit_below by (rewrite Hc; simpl; f_equal; apply Z.leb_gt; lia).
    rewrite IH.
    + cbn [__buffer set_buffer]. rewrite set_buffer_twice, <- app_assoc. reflexivity.
    + exact Hc.
    + cbn [__buffer set_buffer]. rewrite length_snoc. lia.
Qed.

(** X4. With a capacity that is not a number ([None], a string, a list,
    ...) the threshold test itself raises [TypeError] at every call: each
    record is buffered and reported once to [handleError], in order, and no
    flush is ever dispatched. *)
Theorem emit_run_non_numeric_capacity self records e :
  is_number (__buffer_size self) = false ->
  emit_all P self records e =
    (Val tt, set_buffer self (__buffer self ++ records),
     {| smtp_log := smtp_log e;
        reported := reported e ++ map (fun r => (r, TypeError)) records;
        submitted := submitted e |}).
Proof.
  revert self e. induction records as [| r rest IH]; intros self e Hn.
  - simpl. rewrite !app_nil_r. destruct self, e; reflexivity.
  - cbn [emit_all].
    assert (Hx : exists x,
      py_int_ge (Z.of_nat (length (__buffer self)) + 1) (__buffer_size self) = Exc x).
    { destruct (__buffer_size self); simpl in *; try discriminate; eauto. }
    destruct Hx as [x Hx]. erewrite emit_bad_threshold by eassumption.
    rewrite IH by exact Hn.
    cbn [__buffer set_buffer smtp_log reported submitted handleError map].
    rewrite set_buffer_twice, <- !app_assoc. reflexivity.
Qed.

End EmitRuns.

Lemma emit_run_counts_witness :
  let e' := (emit_all reachable (sample_handler 2) [rec_a; rec_b; rec_c] env0).2 in
  Z.of_nat (length (submitted e')) = 0 + Z.max 0 (Z.min 3 (3 + 0 - 2 + 1)) /\
  Z.of_nat (length (reported e')) = 0 + Z.max 0 (Z.min 3 (3 + 0 - 2 + 1)).
Proof.
  exact (emit_run_counts reachable (sample_handler 2) [rec_a; rec_b; rec_c] env0 2 eq_refl).
Defined.

Lemma emit_run_below_capacity_witness :
  emit_all reachable (sample_handler 10) [rec_a; rec_b] env0 =
    (Val tt, set_buffer (sample_handler 10) [rec_a; rec_b], env0).
Proof.
  apply (emit_run_below_capacity reachable (sample_handler 10) [rec_a; rec_b] env0 10).
  - reflexivity.
  - simpl. lia.
Defined.

Lemma emit_run_non_numeric_capacity_witness :
  emit_all reachable no_capacity [rec_a; rec_b] env0 =
    (Val tt, set_buffer no_capacity [rec_a; rec_b],
     {| smtp_log := [];
        reported := [(rec_a, TypeError); (rec_b, TypeError)];
        submitted := [] |}).
Proof.
  exact (emit_run_non_numeric_capacity reachable no_capacity [rec_a; rec_b] env0 eq_refl).
Defined.

(** ** Runs of [__emit] *)

Section DeliveryRuns.

Variable P : platform.

Lemma appends_smtp c : appends_calls (smtp P c).
Proof. intros e. exists [(c, net P c)]. reflexivity. Qed.

Lemma appends_lift {A} (r : res A) : appends_calls (lift r).
Proof. intros e. exists []. cbn. rewrite app_nil_r. destruct e; reflexivity. Qed.

Lemma appends_ret {A} (a : A) : appends_calls (ret a).
Proof. intros e. exists []. cbn. rewrite app_nil_r. destruct e; reflexivity. Qed.

Lemma appends_bind {A B} (m : M env A) (k : A -> M env B) :
  appends_calls m -> (forall a, appends_calls (k a)) -> appends_calls (bind m k).
Proof.
  intros Hm Hk e. unfold bind. destruct (Hm e) as [calls Hc].
  destruct (m e) as [[a|x] e1]; cbn in Hc; subst e1.
  - destruct (Hk a {| smtp_log := smtp_log e ++ calls; reported := reported e;
                      submitted := submitted e |}) as [calls' Hc'].
    exists (calls ++ calls'). rewrite Hc'. cbn. rewrite app_assoc. reflexivity.
  - exists calls. reflexivity.
Qed.

Ltac solve_appends :=
  repeat first
    [ apply appends_smtp
    | apply appends_lift
    | apply appends_ret
    | apply appends_bind; [| intros ?]
    | match goal with
      | |- appends_calls (if ?b then _ else _) => destruct b
      end ].

(** X5. Delivery is framed: whether it returns or raises, [__emit] only
    adds calls to the SMTP log; it never reports to [handleError] and leaves
    the handler, its buffer included, as it found it. *)
Theorem __emit_only_adds_calls self e :
  exists calls,
    (__emit P self e).2 =
      {| smtp_log := smtp_log e ++ calls;
         reported := reported e;
         submitted := submitted e |}.
Proof.
  revert e. change (appends_calls (__emit P self)).
  unfold __emit. cbv zeta. solve_appends.
Qed.

Lemma first_call_is_open self e :
  let h := base self in
  let port := if truthy (mailport h) then mailport h else PyInt SMTP_PORT in
  let c := SMTP_open (mailhost h) port (timeout h) in
  exists rest,
    smtp_log (__emit P self e).2 = smtp_log e ++ (c, net P c) :: rest.
Proof.
  cbv zeta. unfold __emit. cbv zeta.
  replace (if negb (truthy (mailport (base self))) then PyInt SMTP_PORT
           else mailport (base self))
    with (if truthy (mailport (base self)) then mailport (base self)
          else PyInt SMTP_PORT)
    by (destruct (truthy (mailport (base self))); reflexivity).
  set (c := SMTP_open _ _ _).
  match goal with
  | |- context [bind (smtp P c) ?k] =>
      assert (Hk : forall a, appends_calls (k a)) by (intros ?; solve_appends);
      set (K := k) in *
  end.
  unfold bind at 1. unfold smtp at 1.
  destruct (net P c) as [x|].
  - exists []. reflexivity.
  - destruct (Hk tt {| smtp_log := smtp_log e ++ [(c, None)]; reported := reported e;
                       submitted := submitted e |}) as [calls Hc].
    exists calls. rewrite Hc. cbn. rewrite <- app_assoc. reflexivity.
Qed.

(** X6. The first thing a delivery does, whatever follows, is to open the
    connection to [self.mailhost] with [self.timeout], on [self.mailport]
    or, when that is [None] or zero, on port 25. *)
Theorem __emit_opens_connection_first self e :
  let h := base self in
  let port := if truthy (mailport h) then mailport h else PyInt SMTP_PORT in
  let c := SMTP_open (mailhost h) port (timeout h) in
  exists rest,
    smtp_log (__emit P self e).2 = smtp_log e ++ (c, net P c) :: rest.
Proof. apply first_call_is_open. Qed.

(** X7. When the endpoint refuses the connection, [__emit] raises what
    [smtplib.SMTP(...)] raised and does nothing else: no further SMTP call,
    no message. *)
Theorem __emit_connection_refused self e x :
  let h := base self in
  let port := if truthy (mailport h) then mailport h else PyInt SMTP_PORT in
  let c := SMTP_open (mailhost h) port (timeout h) in
  net P c = Some x ->
  __emit P self e =
    (Exc x, {| smtp_log := smtp_log e ++ [(c, Some x)];
               reported := reported e;
               submitted := submitted e |}).
Proof.
  cbv zeta. intros H. unfold __emit. cbv zeta.
  replace (if negb (truthy (mailport (base self))) then PyInt SMTP_PORT
           else mailport (base self))
    with (if truthy (mailport (base self)) then mailport (base self)
          else PyInt SMTP_PORT)
    by (destruct (truthy (mailport (base self))); reflexivity).
  unfold bind at 1. unfold smtp at 1. rewrite H. reflexivity.
Qed.

End DeliveryRuns.

Lemma __emit_connection_refused_witness :
  __emit unreachable (set_buffer (sample_handler 2) [rec_a; rec_b]) env0 =
    (Exc OSError,
     {| smtp_log :=
          [(SMTP_open (PyStr "smtp.example.com") (PyInt SMTP_PORT) (PyFloat 5),
            Some OSError)];
        reported := [];
        submitted := [] |}).
Proof.
  exact (__emit_connection_refused unreachable
           (set_buffer (sample_handler 2) [rec_a; rec_b]) env0 OSError eq_refl).
Defined.

(** ** What the constructor stores *)

(** The attributes [super().__init__] is left with, read off the
    arguments. *)
Lemma init_super_inv args kwargs s :
  init_super args kwargs = Val s ->
  let host := arg_or_kwarg args 0 kwargs "maihost" (PyStr "") in
  let creds := kwargs_get kwargs "credentials" PyNone in
  let to := arg_or_kwarg args 2 kwargs "toaddrs" (PyList []) in
  (if is_list_or_tuple host then unpack2 host = Val (mailhost s, mailport s)
   else mailhost s = host /\ mailport s = PyNone) /\
  (if is_list_or_tuple creds
   then exists p, unpack2 creds = Val (username s, p) /\ password s = Some p
   else username s = PyNone /\ password s = None) /\
  fromaddr s = arg_or_kwarg args 1 kwargs "fromaddr" (PyStr "") /\
  toaddrs s = match to with PyStr _ => PyList [to] | _ => to end /\
  subject s = arg_or_kwarg args 3 kwargs "subject" (PyStr "") /\
  secure s = kwargs_get kwargs "secure" (PyBool false) /\
  timeout s = kwargs_get kwargs "timeout" (PyFloat 5).
Proof.
  unfold init_super, SMTPHandler_init. cbv zeta.
  destruct (is_list_or_tuple (arg_or_kwarg args 0 kwargs "maihost" (PyStr ""))).
  - destruct (unpack2 (arg_or_kwarg args 0 kwargs "maihost" (PyStr "")))
      as [[h pt]|]; simpl; [| discriminate].
    destruct (is_list_or_tuple (kwargs_get kwargs "credentials" PyNone)).
    + destruct (unpack2 (kwargs_get kwargs "credentials" PyNone))
        as [[u pw]|]; simpl; [| discriminate].
      intros [= <-]. simpl. repeat split. eauto.
    + simpl. intros [= <-]. simpl. repeat split.
  - simpl.
    destruct (is_list_or_tuple (kwargs_get kwargs "credentials" PyNone)).
    + destruct (unpack2 (kwargs_get kwargs "credentials" PyNone))
        as [[u pw]|]; simpl; [| discriminate].
      intros [= <-]. simpl. repeat split. eauto.
    + simpl. intros [= <-]. simpl. repeat split.
Qed.

(** ** Outcomes of [__emit] *)

Section DeliveryOutcomes.

Variable P : platform.

Lemma bind_exc_inv {S A B} (m : M S A) (k : A -> M S B) s x s' :
  bind m k s = (Exc x, s') ->
  m s = (Exc x, s') \/ exists a s1, m s = (Val a, s1) /\ k a s1 = (Exc x, s').
Proof.
  unfold bind. destruct (m s) as [[a|y] s1]; [eauto |].
  intros [= -> ->]. auto.
Qed.

Lemma lift_exc_inv {S A} (r : res A) (s : S) x s' :
  lift r s = (Exc x, s') -> r = Exc x /\ s' = s.
Proof. unfold lift. intros [= -> ->]. auto. Qed.

Lemma smtp_ok_inv c e u e' :
  smtp P c e = (Val u, e') ->
  net P c = None /\
  e' = {| smtp_log := smtp_log e ++ [(c, None)];
          reported := reported e; submitted := submitted e |}.
Proof.
  unfold smtp. destruct (net P c); [discriminate |].
  intros [= _ <-]. auto.
Qed.

Lemma smtp_exc_inv c e x e' :
  smtp P c e = (Exc x, e') ->
  net P c = Some x /\
  e' = {| smtp_log := smtp_log e ++ [(c, Some x)];
          reported := reported e; submitted := submitted e |}.
Proof.
  unfold smtp. destruct (net P c) as [y|]; [| discriminate].
  intros [= <- <-]. auto.
Qed.

Ltac invert_outcome :=
  repeat match goal with
    | H : bind _ _ _ = (Val _, _) |- _ =>
        apply bind_inv in H as (? & ? & ? & H)
    | H : bind _ _ _ = (Exc _, _) |- _ =>
        apply bind_exc_inv in H as [H | (? & ? & ? & H)]
    | H : lift _ _ = (Val _, _) |- _ => apply lift_inv in H as [? ->]
    | H : lift _ _ = (Exc _, _) |- _ => apply lift_exc_inv in H as [? ->]
    | H : ret _ _ = (Val _, _) |- _ => apply ret_inv in H as ->
    | H : ret _ _ = (Exc _, _) |- _ => discriminate H
    | H : smtp P _ _ = (Val _, _) |- _ => apply smtp_ok_inv in H as [? ->]
    | H : smtp P _ _ = (Exc _, _) |- _ => apply smtp_exc_inv in H as [? ->]
    | H : (if ?b then _ else _) _ = _ |- _ => destruct b eqn:?
    end.

Ltac show_log :=
  cbn [smtp_log]; repeat rewrite <- app_assoc; cbn [app]; reflexivity.

(** X8. When [__emit] raises, the connection it opened has not been closed:
    no [quit] went through.  And either no message was sent, or the message
    was sent and it is [quit] that raised, so the batch is out although the
    delivery counts as failed. *)
Theorem __emit_failure_leaves_connection self e x e' :
  __emit P self e = (Exc x, e') ->
  exists calls,
    smtp_log e' = smtp_log e ++ calls /\
    closed calls = false /\
    (sent calls = [] \/ net P SMTP_quit = Some x).
Proof.
  intros H. unfold __emit in H. cbv zeta in H. invert_outcome.
  all: eexists; split; [show_log |]; split; [reflexivity |]; auto.
Qed.

(** X9. The message of a successful delivery: sender and subject are the
    handler's [fromaddr] and [subject] as they are (the subject does not
    depend on the records), the recipients are joined by commas, the date
    is the clock's. *)
Theorem delivered_message_headers self e e' :
  __emit P self e = (Val tt, e') ->
  exists to lines calls,
    py_join "," (toaddrs (base self)) = Val to /\
    format_records P self (__buffer self) = Val lines /\
    smtp_log e' = smtp_log e ++ calls /\
    sent calls =
      [{| msg_From := fromaddr (base self); msg_To := to;
          msg_Subject := subject (base self); msg_Date := localtime P;
          content := String.concat newline lines |}].
Proof.
  intros H. unfold __emit in H. cbv zeta in H. invert_outcome.
  all: do 3 eexists; split; [eassumption |]; split; [eassumption |];
    split; [show_log | reflexivity].
Qed.

(** X10. Without a user name a delivery makes three SMTP calls and no
    more: open, send, quit; there is no EHLO, no STARTTLS and no login,
    whatever [secure] holds. *)
Theorem __emit_without_username self e e' :
  truthy (username (base self)) = false ->
  __emit P self e = (Val tt, e') ->
  exists port m,
    smtp_log e' =
      smtp_log e ++
        [(SMTP_open (mailhost (base self)) port (timeout (base self)), None);
         (SMTP_send_message m, None);
         (SMTP_quit, None)].
Proof.
  intros Hu H. unfold __emit in H. cbv zeta in H. rewrite Hu in H.
  invert_outcome. do 2 eexists. show_log.
Qed.

(** X11. With a user name, a successful delivery logs in with the stored
    credentials just before sending; when [secure] is not [None] the login
    is preceded by EHLO, STARTTLS on the items of [secure], EHLO, and when
    it is [None] by nothing. *)
Theorem __emit_with_username self e e' :
  truthy (username (base self)) = true ->
  __emit P self e = (Val tt, e') ->
  exists port pw m tls,
    password (base self) = Some pw /\
    (secure (base self) = PyNone /\ tls = [] \/
     exists star,
       py_iter (secure (base self)) = Val star /\
       tls = [(SMTP_ehlo, None); (SMTP_starttls star, None); (SMTP_ehlo, None)]) /\
    smtp_log e' =
      smtp_log e ++
        [(SMTP_open (mailhost (base self)) port (timeout (base self)), None)] ++
        tls ++
        [(SMTP_login (username (base self)) pw, None);
         (SMTP_send_message m, None);
         (SMTP_quit, None)].
Proof.
  intros Hu H. unfold __emit in H. cbv zeta in H. rewrite Hu in H.
  invert_outcome.
  all: match goal with
       | Hp : get_password _ = Val ?pw |- _ =>
           unfold get_password in Hp;
           destruct (password (base self)) as [pw'|] eqn:Hpw; [| discriminate];
           injection Hp as ->
       end.
  - do 4 eexists. split; [reflexivity |]. split.
    + right. eexists. split; [eassumption | reflexivity].
    + show_log.
  - do 4 eexists. split; [reflexivity |]. split.
    + left. split; [| reflexivity].
      destruct (secure (base self)); try discriminate; reflexivity.
    + show_log.
Qed.

(** X12. A host given as the first positional argument is the host a
    delivery connects to, on port 25 (in contrast to one given as the
    keyword [mailhost]). *)
Theorem positional_host_is_connected_to host rest kwargs s self e :
  is_list_or_tuple host = false ->
  init_super (host :: rest) kwargs = Val s ->
  base self = s ->
  let c := SMTP_open host (PyInt SMTP_PORT) (timeout s) in
  exists calls,
    smtp_log (__emit P self e).2 = smtp_log e ++ (c, net P c) :: calls.
Proof.
  intros Hh Hs Hb. apply init_super_inv in Hs as (Hhost & _).
  cbn [arg_or_kwarg lookup list_lookup] in Hhost. rewrite Hh in Hhost.
  destruct Hhost as [Hm Hp]. cbv zeta.
  pose proof (first_call_is_open P self e) as H. cbv zeta in H.
  rewrite Hb, Hm, Hp in H. exact H.
Qed.

(** X13. A first positional argument [(host, port)] is split: a delivery
    connects to [host] on [port] when the port is a non-zero integer. *)
Theorem positional_host_port_is_connected_to host port rest kwargs s self e :
  port <> 0 ->
  init_super (PyTuple [host; PyInt port] :: rest) kwargs = Val s ->
  base self = s ->
  let c := SMTP_open host (PyInt port) (timeout s) in
  exists calls,
    smtp_log (__emit P self e).2 = smtp_log e ++ (c, net P c) :: calls.
Proof.
  intros Hp Hs Hb. apply init_super_inv in Hs as (Hhost & _).
  cbn in Hhost. injection Hhost as Hm Hpt. cbv zeta.
  pose proof (first_call_is_open P self e) as H. cbv zeta in H.
  rewrite Hb, <- Hm, <- Hpt in H. cbn [truthy] in H.
  apply Z.eqb_neq in Hp. rewrite Hp in H. exact H.
Qed.

(** X14. Recipients given as one string are wrapped into a one-element
    list by [super().__init__], and the message of a successful delivery is
    addressed to exactly that string. *)
Theorem single_recipient_is_addressed args kwargs a s self e e' :
  arg_or_kwarg args 2 kwargs "toaddrs" (PyList []) = PyStr a ->
  init_super args kwargs = Val s ->
  base self = s ->
  __emit P self e = (Val tt, e') ->
  exists m calls,
    smtp_log e' = smtp_log e ++ calls /\ sent calls = [m] /\ msg_To m = a.
Proof.
  intros Ha Hs Hb H. apply init_super_inv in Hs as (_ & _ & _ & Hto & _).
  cbv zeta in Hto. rewrite Ha in Hto.
  unfold __emit in H. cbv zeta in H. rewrite Hb, Hto in H.
  invert_outcome.
  all: match goal with
       | Hj : py_join _ _ = Val _ |- _ => cbn in Hj; injection Hj as <-
       end.
  all: do 2 eexists; split; [show_log |]; split; reflexivity.
Qed.

(** X15. Credentials without [secure]: the constructor then stores
    [secure = False], which is not [None], so a delivery goes for STARTTLS
    and raises when it unpacks [self.secure] for [starttls]; such a handler
    never sends a message. *)
Theorem credentials_without_secure_never_deliver args kwargs u p s self e :
  kwargs !! "credentials" = Some (PyTuple [u; p]) ->
  kwargs !! "secure" = None ->
  truthy u = true ->
  init_super args kwargs = Val s ->
  base self = s ->
  exists x e' calls,
    __emit P self e = (Exc x, e') /\
    smtp_log e' = smtp_log e ++ calls /\
    sent calls = [].
Proof.
  intros Hc Hsec Hu Hs Hb. apply init_super_inv in Hs as (_ & Hcr & _ & _ & _ & Hse & _).
  cbv zeta in Hcr. unfold kwargs_get in Hcr, Hse. rewrite Hc in Hcr. rewrite Hsec in Hse.
  cbn in Hcr, Hse. destruct Hcr as (pw & [= Hus _] & _).
  destruct (__emit P self e) as [[[]|x] e'] eqn:H;
    unfold __emit in H; cbv zeta in H;
    rewrite Hb, Hse, <- Hus, Hu in H; cbn [is_not_None py_iter] in H;
    invert_outcome; try discriminate.
  all: do 3 eexists; split; [reflexivity |]; split; [show_log | reflexivity].
Qed.

End DeliveryOutcomes.

(** X16. A host or credentials given as a tuple that is not a pair make
    the constructor raise [ValueError], from the unpacking in
    [super().__init__], before line 99 is reached. *)
Theorem malformed_pair_raises_ValueError items :
  length items <> 2%nat ->
  (forall rest kwargs,
      InovatSMTPHandler_init (PyTuple items :: rest) kwargs = Exc ValueError) /\
  (forall host rest kwargs,
      is_list_or_tuple host = false ->
      kwargs !! "credentials" = Some (PyTuple items) ->
      InovatSMTPHandler_init (host :: rest) kwargs = Exc ValueError).
Proof.
  intros Hlen. split.
  - intros rest kwargs.
    destruct items as [| a [| b [| c l]]]; try reflexivity.
    contradiction Hlen; reflexivity.
  - intros host rest kwargs Hh Hc.
    unfold InovatSMTPHandler_init, init_super, SMTPHandler_init, kwargs_get.
    cbn [arg_or_kwarg lookup list_lookup]. rewrite Hh, Hc.
    destruct items as [| a [| b [| c l]]]; try reflexivity.
    contradiction Hlen; reflexivity.
Qed.

Lemma malformed_pair_raises_ValueError_witness :
  InovatSMTPHandler_init [PyStr "smtp.example.com"]
    (<["credentials" := PyTuple [PyStr "user"]]> ∅) = Exc ValueError.
Proof.
  apply (malformed_pair_raises_ValueError [PyStr "user"]).
  - simpl. lia.
  - reflexivity.
  - reflexivity.
Defined.

(** ** The facade around a failed [configure] *)

Section FacadeRuns.

Variable P : platform.

Lemma getLogger_twice name w :
  (getLogger name (getLogger name w).2).2 = (getLogger name w).2.
Proof.
  unfold getLogger. cbn [snd loggerDict the_env]. f_equal.
  unfold the_logger at 1. cbn [loggerDict].
  rewrite lookup_insert_eq. cbn [default]. apply insert_insert_eq.
Qed.

Lemma getLogger_any_inv name w key w' :
  getLogger_any name w = (Val key, w') ->
  exists s,
    (forall w0, getLogger_any name w0 = (Val (logger_key s), (getLogger s w0).2)) /\
    key = logger_key s /\ w' = (getLogger s w).2.
Proof.
  destruct name as [ | b | z | q | s | l | l | t ]; unfold getLogger_any.
  5: { intros [= <- <-]. exists s. auto. }
  all: destruct (truthy _) eqn:Ht; [discriminate |];
    intros [= <- <-]; exists ""; auto.
Qed.

Lemma getLogger_any_twice name w key w' :
  getLogger_any name w = (Val key, w') -> getLogger_any name w' = (Val key, w').
Proof.
  intros H. apply getLogger_any_inv in H as (s & Hs & -> & ->).
  rewrite Hs, getLogger_twice. reflexivity.
Qed.

(** X17. Calling [configure] again changes nothing: it raises the same
    [Exception] and leaves the facade and the registry as the first call
    left them (no handler is ever there to be registered twice). *)
Theorem configure_twice self w :
  let '(_, self1, w1) := configure P self w in
  configure P self1 w1 = (Exc Exception, self1, w1).
Proof.
  rewrite configure_raises.
  destruct (getattr (_configuration self) "name") as [name|x] eqn:Hn.
  - destruct (getLogger_any name w) as [[key|x] w'] eqn:Hg.
    + rewrite configure_raises. cbn [_configuration]. rewrite Hn.
      rewrite (getLogger_any_twice _ _ _ _ Hg). reflexivity.
    + rewrite configure_raises, Hn, Hg. reflexivity.
  - rewrite configure_raises, Hn. reflexivity.
Qed.

(** X19. [from_dict] wraps a validated configuration into a facade that is
    not configured, so that every logging call on it raises until
    [configure] is called; and whatever [Exception] the validation raises
    comes out as a bare [Exception]. *)
Theorem from_dict_gives_unconfigured validate d :
  match validate d with
  | Val configuration =>
      exists self,
        from_dict validate d = Val self /\
        _configuration self = configuration /\
        configured self = false /\
        forall c message w, run_call P c self message w = (Exc Exception, w)
  | Exc x =>
      from_dict validate d = Exc (if is_Exception x then Exception else x)
  end.
Proof.
  unfold from_dict. destruct (validate d) as [configuration | x].
  - eexists. split; [reflexivity |]. split; [reflexivity |]. split; [reflexivity |].
    intros c message w. destruct c; reflexivity.
  - destruct (is_Exception x); reflexivity.
Qed.

End FacadeRuns.

(** ** [RedisLogger] *)

Lemma bind_arguments_raises params required args kwargs x :
  bind_arguments params required args kwargs = Exc x -> x = TypeError.
Proof.
  unfold bind_arguments.
  assert (Hp : forall ps ar y, bind_positional ps ar = Exc y -> y = TypeError).
  { intros ps ar. revert ps.
    induction ar as [| a ar IH]; intros [| p ps] y; simpl; try congruence.
    destruct (bind_positional ps ar) eqn:Hb; simpl; [discriminate |].
    intros [= <-]. eapply IH, Hb. }
  destruct (bind_positional params args) as [pos | y] eqn:Hb; simpl.
  - repeat case_bool_decide; simpl; congruence.
  - intros [= <-]. eapply Hp, Hb.
Qed.

(** Arguments that [logging.Logger.__init__] accepts are at most two, named
    [name] and [level]; [RedisHandler.__init__] wants four others. *)
Lemma Logger_arguments_do_not_fit_RedisHandler args kwargs r :
  Logger_init args kwargs = Val r ->
  RedisHandler_init args kwargs = Exc TypeError.
Proof.
  unfold Logger_init. intros H.
  destruct (bind_arguments ["name"; "level"] ["name"] args kwargs) as [b|] eqn:Hb;
    [clear H | discriminate].
  unfold bind_arguments in Hb.
  destruct (bind_positional ["name"; "level"] args) as [pos|] eqn:Hpos;
    [| discriminate].
  simpl in Hb. case_bool_decide as Hdom; [| discriminate]. clear Hb.
  unfold RedisHandler_init.
  destruct (bind_arguments ["host"; "port"; "username"; "password"]
              ["host"; "port"; "username"; "password"] args kwargs) as [b'|x] eqn:Hb'.
  2: { apply bind_arguments_raises in Hb'. subst x. reflexivity. }
  exfalso. unfold bind_arguments in Hb'.
  destruct (bind_positional ["host"; "port"; "username"; "password"] args)
    as [pos'|] eqn:Hpos'; [| discriminate].
  simpl in Hb'. case_bool_decide as Hdom'; [| discriminate].
  assert (Hk : kwargs = ∅).
  { apply dom_empty_inv_L. apply set_eq. intros k. split; [| set_solver].
    intros Hin. pose proof (Hdom k Hin) as Hin2. pose proof (Hdom' k Hin) as Hin4.
    cbn in Hin2, Hin4. set_unfold.
    destruct Hin2 as [-> | [-> | []]];
      destruct Hin4 as [? | [? | [? | [? | []]]]]; discriminate. }
  subst kwargs. simpl in Hb'.
  case_bool_decide; [| discriminate]. simpl in Hb'.
  case_bool_decide as Hreq; [| discriminate].
  assert (Hpw : "password" ∈ dom (pos' ∪ (∅ : gmap string pyval))).
  { apply Hreq. cbn. set_solver. }
  rewrite (right_id_L (∅ : gmap string pyval) (∪)) in Hpw.
  apply elem_of_dom in Hpw as [v Hv].
  destruct args as [| a [| a' [| a'' args]]]; simpl in Hpos, Hpos'.
  - injection Hpos' as <-. rewrite lookup_empty in Hv. discriminate.
  - injection Hpos' as <-. rewrite lookup_insert_ne in Hv by discriminate.
    rewrite lookup_empty in Hv. discriminate.
  - injection Hpos' as <-. rewrite !lookup_insert_ne in Hv by discriminate.
    rewrite lookup_empty in Hv. discriminate.
  - discriminate.
Qed.

(** X20. A [RedisLogger] cannot be constructed: its [__init__] hands the
    same arguments to [logging.Logger.__init__] and to [RedisHandler], and
    no argument list fits both; whenever the first accepts them the second
    raises [TypeError], after the logger of the configured name has been
    looked up in the registry. *)
Theorem RedisLogger_init_always_raises args config kwargs w :
  RedisLogger_init args config kwargs w =
    match Logger_init args kwargs with
    | Val _ => (Exc TypeError, (getLogger (sr_name config) w).2)
    | Exc x => (Exc x, w)
    end.
Proof.
  unfold RedisLogger_init.
  destruct (Logger_init args kwargs) as [[name lv]|x] eqn:H; [| reflexivity].
  rewrite (Logger_arguments_do_not_fit_RedisHandler _ _ _ H).
  reflexivity.
Qed.

(** ** Further concrete runs *)

Lemma __emit_failure_leaves_connection_witness :
  let self := set_buffer (sample_handler 2) [rec_a] in
  exists calls,
    smtp_log (__emit quit_fails self env0).2 = smtp_log env0 ++ calls /\
    closed calls = false /\
    (sent calls = [] \/ net quit_fails SMTP_quit = Some SMTPException).
Proof.
  exact (__emit_failure_leaves_connection quit_fails
           (set_buffer (sample_handler 2) [rec_a]) env0 SMTPException
           (__emit quit_fails (set_buffer (sample_handler 2) [rec_a]) env0).2
           eq_refl).
Defined.

Lemma delivered_message_headers_witness :
  let self := set_buffer (sample_handler 2) [rec_a; rec_b] in
  exists to lines calls,
    py_join "," (toaddrs (base self)) = Val to /\
    format_records reachable self (__buffer self) = Val lines /\
    smtp_log (__emit reachable self env0).2 = smtp_log env0 ++ calls /\
    sent calls =
      [{| msg_From := fromaddr (base self); msg_To := to;
          msg_Subject := subject (base self); msg_Date := localtime reachable;
          content := String.concat newline lines |}].
Proof.
  exact (delivered_message_headers reachable
           (set_buffer (sample_handler 2) [rec_a; rec_b]) env0
           (__emit reachable (set_buffer (sample_handler 2) [rec_a; rec_b]) env0).2
           eq_refl).
Defined.

Lemma __emit_without_username_witness :
  let self := set_buffer (sample_handler 2) [rec_a] in
  exists port m,
    smtp_log (__emit reachable self env0).2 =
      smtp_log env0 ++
        [(SMTP_open (mailhost (base self)) port (timeout (base self)), None);
         (SMTP_send_message m, None);
         (SMTP_quit, None)].
Proof.
  exact (__emit_without_username reachable
           (set_buffer (sample_handler 2) [rec_a]) env0
           (__emit reachable (set_buffer (sample_handler 2) [rec_a]) env0).2
           eq_refl eq_refl).
Defined.

Lemma __emit_with_username_witness :
  let self := with_login (PyTuple []) in
  exists port pw m tls,
    password (base self) = Some pw /\
    (secure (base self) = PyNone /\ tls = [] \/
     exists star,
       py_iter (secure (base self)) = Val star /\
       tls = [(SMTP_ehlo, None); (SMTP_starttls star, None); (SMTP_ehlo, None)]) /\
    smtp_log (__emit reachable self env0).2 =
      smtp_log env0 ++
        [(SMTP_open (mailhost (base self)) port (timeout (base self)), None)] ++
        tls ++
        [(SMTP_login (username (base self)) pw, None);
         (SMTP_send_message m, None);
         (SMTP_quit, None)].
Proof.
  exact (__emit_with_username reachable (with_login (PyTuple [])) env0
           (__emit reachable (with_login (PyTuple [])) env0).2 eq_refl eq_refl).
Defined.

Lemma positional_host_is_connected_to_witness :
  let s := stored (PyStr "smtp.example.com") PyNone PyNone None
             (PyList [PyStr "ops@example.com"]) (PyBool false) in
  let c := SMTP_open (PyStr "smtp.example.com") (PyInt SMTP_PORT) (timeout s) in
  exists calls,
    smtp_log (__emit reachable (holding s) env0).2 =
      smtp_log env0 ++ (c, net reachable c) :: calls.
Proof.
  exact (positional_host_is_connected_to reachable (PyStr "smtp.example.com")
           [PyStr "app@example.com"; PyList [PyStr "ops@example.com"]; PyStr "logs"] ∅
           (stored (PyStr "smtp.example.com") PyNone PyNone None
              (PyList [PyStr "ops@example.com"]) (PyBool false))
           (holding (stored (PyStr "smtp.example.com") PyNone PyNone None
                       (PyList [PyStr "ops@example.com"]) (PyBool false)))
           env0 eq_refl eq_refl eq_refl).
Defined.

Lemma positional_host_port_is_connected_to_witness :
  let s := stored (PyStr "smtp.example.com") (PyInt 587) PyNone None
             (PyList [PyStr "ops@example.com"]) (PyBool false) in
  let c := SMTP_open (PyStr "smtp.example.com") (PyInt 587) (timeout s) in
  exists calls,
    smtp_log (__emit reachable (holding s) env0).2 =
      smtp_log env0 ++ (c, net reachable c) :: calls.
Proof.
  apply (positional_host_port_is_connected_to reachable (PyStr "smtp.example.com") 587
           [PyStr "app@example.com"; PyList [PyStr "ops@example.com"]; PyStr "logs"] ∅
           (stored (PyStr "smtp.example.com") (PyInt 587) PyNone None
              (PyList [PyStr "ops@example.com"]) (PyBool false))
           (holding (stored (PyStr "smtp.example.com") (PyInt 587) PyNone None
                       (PyList [PyStr "ops@example.com"]) (PyBool false)))
           env0).
  - lia.
  - reflexivity.
  - reflexivity.
Defined.

Lemma single_recipient_is_addressed_witness :
  let s := stored (PyStr "smtp.example.com") PyNone PyNone None
             (PyList [PyStr "ops@example.com"]) (PyBool false) in
  exists m calls,
    smtp_log (__emit reachable (holding s) env0).2 = smtp_log env0 ++ calls /\
    sent calls = [m] /\ msg_To m = "ops@example.com".
Proof.
  exact (single_recipient_is_addressed reachable
           (positional (PyStr "smtp.example.com") (PyStr "ops@example.com")) ∅
           "ops@example.com"
           (stored (PyStr "smtp.example.com") PyNone PyNone None
              (PyList [PyStr "ops@example.com"]) (PyBool false))
           (holding (stored (PyStr "smtp.example.com") PyNone PyNone None
                       (PyList [PyStr "ops@example.com"]) (PyBool false)))
           env0
           (__emit reachable
              (holding (stored (PyStr "smtp.example.com") PyNone PyNone None
                          (PyList [PyStr "ops@example.com"]) (PyBool false)))
              env0).2
           eq_refl eq_refl eq_refl eq_refl).
Defined.

Lemma credentials_without_secure_never_deliver_witness :
  let s := stored (PyStr "smtp.example.com") PyNone (PyStr "user")
             (Some (PyStr "secret")) (PyList [PyStr "ops@example.com"])
             (PyBool false) in
  exists x e' calls,
    __emit reachable (holding s) env0 = (Exc x, e') /\
    smtp_log e' = smtp_log env0 ++ calls /\
    sent calls = [].
Proof.
  exact (credentials_without_secure_never_deliver reachable
           (positional (PyStr "smtp.example.com") (PyList [PyStr "ops@example.com"]))
           (<["credentials" := PyTuple [PyStr "user"; PyStr "secret"]]> ∅)
           (PyStr "user") (PyStr "secret")
           (stored (PyStr "smtp.example.com") PyNone (PyStr "user")
              (Some (PyStr "secret")) (PyList [PyStr "ops@example.com"])
              (PyBool false))
           (holding (stored (PyStr "smtp.example.com") PyNone (PyStr "user")
                       (Some (PyStr "secret")) (PyList [PyStr "ops@example.com"])
                       (PyBool false)))
           env0 eq_refl eq_refl eq_refl eq_refl eq_refl).
Defined.
